(** * A personal ledger: shallow embedding of [finances.py]

    The program keeps one JSON document (transactions and per-category
    limits) in a file, reloads it at the start of every operation and writes
    it back after every change.  The embedding follows that shape:

    - the file and the message boxes / report window form a [world] that
      every operation transforms (a state monad with Python exceptions);
    - a transaction is the dictionary the code builds, one record field per
      key; the limits dictionary is a [gmap] from category to number;
    - amounts are Python numbers.  The code only ever uses the literal [0],
      [+], [<] (and [>]) and [float(...)] on them, so the development is
      written over a type class with exactly these operations; the laws of
      exact arithmetic are separate classes, assumed only by the statements
      that need them, and instantiated at [Z]; the order of the rows of a
      report is also looked at on binary floats, NaN included;
    - [datetime.strptime], [datetime.isoformat] and [sorted] are library
      code; they are modelled for the two formats and the keys the program
      uses, [sorted] after [list.sort] of CPython 3.11. *)

From Stdlib Require Import ZArith Ascii String List Lia.
From Stdlib Require Import PrimFloat Uint63.
From Stdlib Require Import Floats.SpecFloat Floats.FloatOps Floats.FloatAxioms.
From Stdlib Require Import Sorting.Sorted Sorting.Permutation.
From stdpp Require Import base option strings list sorting gmap.

Local Open Scope string_scope.
Local Open Scope Z_scope.
Local Open Scope list_scope.

(** ** Python numbers *)

(** What the program asks of an amount or a limit. *)
Class PyNumber (A : Type) := {
  num_zero : A;                         (* the literal 0 *)
  num_add : A → A → A;                  (* a + b *)
  num_lt : A → A → bool;                (* a < b;  a > b is [num_lt b a] *)
  float_of_string : string → option A   (* float(s); None: ValueError *)
}.

(** Exact addition: what "within numeric tolerance" abstracts to. *)
Class ExactAdd (A : Type) {number : PyNumber A} : Prop := {
  num_add_assoc : ∀ a b c : A, num_add a (num_add b c) = num_add (num_add a b) c;
  num_add_0_l : ∀ a : A, num_add num_zero a = a;
  num_add_0_r : ∀ a : A, num_add a num_zero = a
}.

(** A strict total order given by its boolean test, as [<] is on strings and
    on integers.  On floats [<] is none: 0.0 and -0.0 are two values neither
    below the other, and a NaN is below and above nothing; what the sort
    needs of floats is [ordered_on] below. *)
Class StrictTotal {K : Type} (lt : K → K → bool) : Prop := {
  lt_irrefl : ∀ a, lt a a = false;
  lt_trans : ∀ a b c, lt a b = true → lt b c = true → lt a c = true;
  lt_connex : ∀ a b, lt a b = false → lt b a = false → a = b
}.

(** [a == b] expressed with [<] alone. *)
Definition same {K : Type} (lt : K → K → bool) (a b : K) : bool :=
  negb (lt a b) && negb (lt b a).

(** ** Decimal digits *)

Definition digit_of_ascii (c : ascii) : option Z :=
  let n := Z.of_nat (nat_of_ascii c) in
  if (48 <=? n) && (n <=? 57) then Some (n - 48) else None.

Definition ascii_of_digit (d : Z) : ascii := ascii_of_nat (Z.to_nat (48 + d mod 10)).

(** Value of a run of ASCII digits, most significant first, on top of [acc]. *)
Fixpoint digits_value (acc : Z) (s : list ascii) : option Z :=
  match s with
  | [] => Some acc
  | c :: s' =>
      match digit_of_ascii c with
      | Some d => digits_value (10 * acc + d) s'
      | None => None
      end
  end.

(** [str(n).zfill(width)] for [0 <= n < 10^width]. *)
Fixpoint zfill (width : nat) (n : Z) : string :=
  match width with
  | O => ""
  | S w => zfill w (n / 10) +:+ String (ascii_of_digit n) ""
  end.

(** ** [datetime] *)

Record datetime := {
  year : Z; month : Z; day : Z;
  hour : Z; minute : Z; second : Z; microsecond : Z
}.

(** Naive datetimes compare field by field, most significant first. *)
Definition datetime_compare (a b : datetime) : comparison :=
  match year a ?= year b with Eq =>
  match month a ?= month b with Eq =>
  match day a ?= day b with Eq =>
  match hour a ?= hour b with Eq =>
  match minute a ?= minute b with Eq =>
  match second a ?= second b with Eq =>
    microsecond a ?= microsecond b
  | c => c end | c => c end | c => c end | c => c end | c => c end | c => c end.

(** [a <= b] on datetimes. *)
Definition datetime_le (a b : datetime) : bool :=
  match datetime_compare a b with Gt => false | _ => true end.

(** The calendar date of a datetime, as [datetime.date()]. *)
Definition date_of (d : datetime) : Z * Z * Z := (year d, month d, day d).

Definition date_le (a b : Z * Z * Z) : bool :=
  match a, b with
  | (y1, m1, d1), (y2, m2, d2) =>
      match y1 ?= y2 with
      | Lt => true | Gt => false
      | Eq => match m1 ?= m2 with
              | Lt => true | Gt => false
              | Eq => d1 <=? d2
              end
      end
  end.

(** [datetime.isoformat()]: the fraction is left out when it is zero. *)
Definition isoformat (d : datetime) : string :=
  zfill 4 (year d) +:+ "-" +:+ zfill 2 (month d) +:+ "-" +:+ zfill 2 (day d)
  +:+ "T" +:+ zfill 2 (hour d) +:+ ":" +:+ zfill 2 (minute d) +:+ ":"
  +:+ zfill 2 (second d)
  +:+ (if microsecond d =? 0 then "" else "." +:+ zfill 6 (microsecond d)).

(** ** Python exceptions *)

Inductive exn :=
  | ValueError (msg : string)
  | TypeError (msg : string).

Inductive outcome (T : Type) :=
  | Return (v : T)
  | Raise (e : exn).
Arguments Return {T} v.
Arguments Raise {T} e.

#[export] Instance outcome_ret : MRet outcome := @Return.
#[export] Instance outcome_bind : MBind outcome := λ _ _ k m,
  match m with
  | Return v => k v
  | Raise e => Raise e
  end.

(** ** [datetime.strptime] for the two formats of the program *)

Definition is_leap (y : Z) : bool :=
  (y mod 4 =? 0) && (negb (y mod 100 =? 0) || (y mod 400 =? 0)).

Definition days_in_month (y m : Z) : Z :=
  if m =? 2 then (if is_leap y then 29 else 28)
  else if (m =? 4) || (m =? 6) || (m =? 9) || (m =? 11) then 30
  else 31.

(** The constructor [datetime(Y, m, d, H, M, S, f)]; [None] stands for its
    ValueError. *)
Definition make_datetime (Y m d H M sec f : Z) : option datetime :=
  if (1 <=? Y) && (Y <=? 9999) && (1 <=? m) && (m <=? 12)
     && (1 <=? d) && (d <=? days_in_month Y m)
     && (0 <=? H) && (H <=? 23) && (0 <=? M) && (M <=? 59)
     && (0 <=? sec) && (sec <=? 59) && (0 <=? f) && (f <=? 999999)
  then Some {| year := Y; month := m; day := d;
               hour := H; minute := M; second := sec; microsecond := f |}
  else None.

(** A group of [minlen] to [maxlen] ASCII digits whose value lies in
    [lo..hi]. *)
Definition digits_field (minlen maxlen : nat) (lo hi : Z) (s : list ascii) : option Z :=
  if (Nat.leb minlen (length s) && Nat.leb (length s) maxlen)%bool then
    v ← digits_value 0 s;
    if (lo <=? v) && (v <=? hi) then Some v else None
  else None.

(** The groups the directives compile to (ASCII digits only; Python's [\d]
    also admits the other Unicode decimal digits, which are left out):
    - [%d]  3[0-1]|[1-2]\d|0[1-9]|[1-9]| [1-9]
    - [%m]  1[0-2]|0[1-9]|[1-9]
    - [%Y]  \d\d\d\d
    - [%H]  2[0-3]|[0-1]\d|\d
    - [%M]  [0-5]\d|\d
    - [%S]  6[0-1]|[0-5]\d|\d
    - [%f]  [0-9]{1,6}, read as a fraction of a second *)
Definition re_d (s : list ascii) : option Z :=
  match s with
  | [" "%char; c] => digits_field 1 1 1 9 [c]
  | _ => digits_field 1 2 1 31 s
  end.
Definition re_m : list ascii → option Z := digits_field 1 2 1 12.
Definition re_Y : list ascii → option Z := digits_field 4 4 0 9999.
Definition re_H : list ascii → option Z := digits_field 1 2 0 23.
Definition re_M : list ascii → option Z := digits_field 1 2 0 59.
Definition re_S : list ascii → option Z := digits_field 1 2 0 61.
Definition re_f (s : list ascii) : option Z :=
  v ← digits_field 1 6 0 999999 s;
  Some (v * 10 ^ (6 - Z.of_nat (length s))).

(** The text up to the first separator, and the text after it. *)
Fixpoint split_on (sep : ascii → bool) (s : list ascii) : option (list ascii * list ascii) :=
  match s with
  | [] => None
  | c :: s' =>
      if sep c then Some ([], s')
      else '(a, b) ← split_on sep s'; Some (c :: a, b)
  end.

Definition lit (c : ascii) : ascii → bool := Ascii.eqb c.
(** Format literals match without regard to case. *)
Definition lit_T (c : ascii) : bool := Ascii.eqb c "T" || Ascii.eqb c "t".

Definition parse_dmY (s : list ascii) : option datetime :=
  '(td, s) ← split_on (lit ".") s;
  '(tm, tY) ← split_on (lit ".") s;
  d ← re_d td; m ← re_m tm; Y ← re_Y tY;
  make_datetime Y m d 0 0 0 0.

Definition parse_iso (s : list ascii) : option datetime :=
  '(tY, s) ← split_on (lit "-") s;
  '(tm, s) ← split_on (lit "-") s;
  '(td, s) ← split_on lit_T s;
  '(tH, s) ← split_on (lit ":") s;
  '(tM, s) ← split_on (lit ":") s;
  '(tS, tf) ← split_on (lit ".") s;
  Y ← re_Y tY; m ← re_m tm; d ← re_d td;
  H ← re_H tH; M ← re_M tM; sec ← re_S tS; f ← re_f tf;
  make_datetime Y m d H M sec f.

Definition strptime_error (o : option datetime) : outcome datetime :=
  match o with
  | Some d => Return d
  | None => Raise (ValueError "time data does not match format")
  end.

(** [datetime.strptime(s, "%d.%m.%Y")] *)
Definition strptime_dmY (s : string) : outcome datetime :=
  strptime_error (parse_dmY (list_ascii_of_string s)).

(** [datetime.strptime(s, "%Y-%m-%dT%H:%M:%S.%f")] *)
Definition strptime_iso (s : string) : outcome datetime :=
  strptime_error (parse_iso (list_ascii_of_string s)).

(** ** [sorted] *)

(** [sorted(l, key=key, reverse=reverse)] after [list.sort] of CPython 3.11
    (Objects/listobject.c), which only ever asks [key x < key y].  A list
    shorter than 64 elements is sorted as one run: [count_run] finds the run
    the list starts with, and [binarysort] inserts the other elements one by
    one at the place a binary search finds.  This is what the definitions
    below do, step by step, whatever the comparison answers.  A longer list
    CPython cuts into several such runs and merges them; where the keys are
    ordered, both ways give the one stably sorted list
    ([stably_sorted_unique]), and only there is the model meant for long
    lists. *)
Section Sorted.
Context {T K : Type} (lt : K → K → bool) (key : T → K).

(** How many elements after [prev] carry on a run that never steps down. *)
Fixpoint ascending_run (prev : T) (l : list T) : nat :=
  match l with
  | [] => 0%nat
  | x :: l' => if lt (key x) (key prev) then 0%nat else S (ascending_run x l')
  end.

(** How many elements after [prev] carry on a run that steps down each
    time. *)
Fixpoint descending_run (prev : T) (l : list T) : nat :=
  match l with
  | [] => 0%nat
  | x :: l' => if lt (key x) (key prev) then S (descending_run x l') else 0%nat
  end.

(** [count_run]: the length of the run the list starts with, and whether it
    is a descending one. *)
Definition count_run (l : list T) : nat * bool :=
  match l with
  | [] => (0%nat, false)
  | [x] => (1%nat, false)
  | x :: y :: l' =>
      if lt (key y) (key x) then (2 + descending_run y l', true)%nat
      else (2 + ascending_run y l', false)%nat
  end.

(** The search loop of [binarysort] between the indices [l] and [r]:
    [p = l + ((r - l) >> 1)]; [pivot < run[p]] moves [r] to [p], otherwise [l]
    moves to [p + 1].  The distance halves each time, so [length run] rounds
    are enough ([bisect_spec]). *)
Fixpoint bisect (fuel : nat) (pivot : T) (run : list T) (l r : nat) : nat :=
  match fuel with
  | O => l
  | S fuel' =>
      if (l <? r)%nat then
        let p := (l + (r - l) / 2)%nat in
        match run !! p with
        | Some y =>
            if lt (key pivot) (key y) then bisect fuel' pivot run l p
            else bisect fuel' pivot run (S p) r
        | None => l
        end
      else l
  end.

(** One step of [binarysort]: [pivot] goes where the search ends. *)
Definition binary_insert (run : list T) (pivot : T) : list T :=
  let i := bisect (length run) pivot run 0%nat (length run) in
  take i run ++ pivot :: drop i run.

Definition binarysort (run rest : list T) : list T :=
  fold_left binary_insert rest run.

(** The run is turned round if it is descending, and the rest inserted. *)
Definition list_sort (l : list T) : list T :=
  let '(n, descending) := count_run l in
  let run := take n l in
  binarysort (if descending then rev run else run) (drop n l).

(** With [reverse] set, the list is reversed, sorted, and reversed again. *)
Definition sorted (reverse : bool) (l : list T) : list T :=
  if reverse then rev (list_sort (rev l)) else list_sort l.

(** Linear insertion: [x] goes in front of the first element whose key is
    greater than its own.  The binary search ends at the same place when
    the run is in order ([binary_insert_linear]). *)
Fixpoint insert_sorted (x : T) (l : list T) : list T :=
  match l with
  | [] => [x]
  | y :: l' =>
      if lt (key x) (key y) then x :: y :: l' else y :: insert_sorted x l'
  end.
End Sorted.

(** ** The document and the world around it *)

Section Ledger.
Context {A : Type} {number : PyNumber A}.

(** One entry of [data["transactions"]]. *)
Record transaction := {
  tx_amount : A;          (* "amount" *)
  tx_category : string;   (* "category" *)
  tx_note : string;       (* "note" *)
  tx_date : string;       (* "date" *)
  tx_type : string        (* "type" *)
}.

(** The document [load_data] returns and [save_data] writes. *)
Record ledger := {
  transactions : list transaction;   (* data["transactions"] *)
  limits : gmap string A             (* data["limits"] *)
}.

(** What the user gets to see: the message boxes and the report window. *)
Inductive ui_event :=
  | showwarning_limit (category : string) (new_total_amount category_limit : A)
  | showinfo_added (transaction_type : string)
  | showinfo_limit (category : string) (limit : A)
  | showerror_date
  | showerror_input (e : string)
  | Toplevel (sort_by : string) (reverse : bool)
  | report_row (idx : nat) (date : datetime) (t : transaction).

(** [file] is the parsed content of finances.json, [None] while the file
    does not exist; [ui] is the log of what has been shown, oldest first. *)
Record world := {
  file : option ledger;
  ui : list ui_event
}.

(** A computation that reads and changes the world and returns or raises. *)
Definition M (T : Type) : Type := world → outcome T * world.

#[global] Instance M_ret : MRet M := λ _ v w, (Return v, w).
#[global] Instance M_bind : MBind M := λ _ _ k m w,
  match m w with
  | (Return v, w') => k v w'
  | (Raise e, w') => (Raise e, w')
  end.

(** [raise e] *)
Definition raise {T : Type} (e : exn) : M T := λ w, (Raise e, w).

(** A computation that does not touch the world. *)
Definition lift {T : Type} (o : outcome T) : M T := λ w, (o, w).

(** [try: body  except ValueError as e: handler(e)] *)
Definition try_except_ValueError {T : Type} (body : M T) (handler : string → M T) : M T :=
  λ w, match body w with
       | (Raise (ValueError e), w') => handler e w'
       | r => r
       end.

(** A call into [tkinter]. *)
Definition show (e : ui_event) : M unit :=
  λ w, (Return tt, {| file := file w; ui := ui w ++ [e] |}).

Definition load_data : M ledger :=
  λ w, match file w with
       | Some data => (Return data, w)
       | None => (Return {| transactions := []; limits := ∅ |}, w)
       end.

Definition save_data (data : ledger) : M unit :=
  λ w, (Return tt, {| file := Some data; ui := ui w |}).

(** [sum(...)]: the items are added to [0] from left to right.  (On floats
    CPython 3.12 also carries a correction for the rounding of each step; it
    vanishes where addition is exact.) *)
Definition sum (l : list A) : A := fold_left num_add l num_zero.

(** ** The operations *)

(** [now] is what [datetime.now()] returns during the call.  [amount] is
    already a number, on which [float(amount)] is the identity. *)
Definition add_transaction (amount : A) (category note : string) (now : datetime) : M unit :=
  data ← load_data;
  let transaction_type := if num_lt amount num_zero then "списание" else "начисление" in
  let transaction := {|
    tx_amount := amount;
    tx_category := category;
    tx_note := note;
    tx_date := isoformat now;
    tx_type := transaction_type
  |} in
  match limits data !! category with
  | Some category_limit =>
      let total_amount_in_category :=
        sum (tx_amount <$> filter (λ t, tx_category t = category) (transactions data)) in
      let new_total_amount := num_add total_amount_in_category amount in
      if num_lt category_limit new_total_amount
      then show (showwarning_limit category new_total_amount category_limit)
      else mret tt
  | None => mret tt
  end;;
  save_data {| transactions := transactions data ++ [transaction];
               limits := limits data |};;
  show (showinfo_added transaction_type).

Definition calculate_balance : M A :=
  data ← load_data;
  mret (sum (tx_amount <$> transactions data)).

Definition set_limit (category : string) (limit : A) : M unit :=
  if num_lt limit num_zero
  then raise (ValueError "Лимит не может быть отрицательным.")
  else
    data ← load_data;
    save_data {| transactions := transactions data;
                 limits := <[category := limit]> (limits data) |};;
    show (showinfo_limit category limit).

(** *** [generate_report] *)

(** A Python value is true in a condition unless it is [None] or [""]. *)
Definition truthy (o : option string) : bool :=
  match o with
  | Some (String _ _) => true
  | _ => false
  end.

(** What [start_date] and [end_date] hold once lines 106-109 have run:
    [None] or the empty string as passed in, or the parsed datetime. *)
Inductive bound :=
  | PyNone
  | PyStr (s : string)
  | PyDatetime (d : datetime).

(** [if b: b = datetime.strptime(b, "%d.%m.%Y")] *)
Definition parse_bound (b : option string) : outcome bound :=
  match b with
  | None => Return PyNone
  | Some s =>
      if truthy b then d ← strptime_dmY s; Return (PyDatetime d)
      else Return (PyStr s)
  end.

(** Comparing a datetime with a string or with [None] is a TypeError. *)
Definition not_supported (op : string) : exn :=
  TypeError (op +:+ " not supported between instances of 'datetime.datetime' and 'str'").

(** [dt >= b] *)
Definition datetime_ge_bound (dt : datetime) (b : bound) : outcome bool :=
  match b with
  | PyDatetime d => Return (datetime_le d dt)
  | _ => Raise (not_supported ">=")
  end.

(** [dt <= b] *)
Definition datetime_le_bound (dt : datetime) (b : bound) : outcome bool :=
  match b with
  | PyDatetime d => Return (datetime_le dt d)
  | _ => Raise (not_supported "<=")
  end.

(** The condition of the comprehension at lines 112-115, with the
    short-circuits of [or] and [and]. *)
Definition in_date_range (start_date end_date : bound) (t : transaction) : outcome bool :=
  after_start ←
    match start_date with
    | PyNone => Return true
    | _ => dt ← strptime_iso (tx_date t); datetime_ge_bound dt start_date
    end;
  if after_start : bool then
    match end_date with
    | PyNone => Return true
    | _ => dt ← strptime_iso (tx_date t); datetime_le_bound dt end_date
    end
  else Return false.

(** [[t for t in transactions if ...]]: the first exception ends it. *)
Fixpoint filter_by_date (start_date end_date : bound) (l : list transaction)
  : outcome (list transaction) :=
  match l with
  | [] => Return []
  | t :: l' =>
      keep ← in_date_range start_date end_date t;
      rest ← filter_by_date start_date end_date l';
      Return (if keep : bool then t :: rest else rest)
  end.

(** The body of the [try] block, lines 105-115. *)
Definition date_filter (start_date end_date : option string) (l : list transaction)
  : outcome (list transaction) :=
  start_date ← parse_bound start_date;
  end_date ← parse_bound end_date;
  filter_by_date start_date end_date l.

(** Lines 103-118.  [None] is the bare [return] of the [except] branch. *)
Definition date_stage (start_date end_date : option string) (l : list transaction)
  : M (option (list transaction)) :=
  if truthy start_date || truthy end_date then
    try_except_ValueError
      (l' ← lift (date_filter start_date end_date l); mret (Some l'))
      (λ _, show showerror_date;; mret None)
  else mret (Some l).

(** Lines 121-122. *)
Definition category_stage (category : option string) (l : list transaction)
  : list transaction :=
  match category with
  | Some c => if truthy category then filter (λ t, tx_category t = c) l else l
  | None => l
  end.

(** Lines 124-134: the key is chosen by the text of [sort_by]. *)
Definition sort_stage (sort_by : string) (reverse : bool) (l : list transaction)
  : list transaction :=
  if decide (sort_by = "дата") then sorted String.ltb tx_date reverse l
  else if decide (sort_by = "сумма") then sorted num_lt tx_amount reverse l
  else if decide (sort_by = "категория") then sorted String.ltb tx_category reverse l
  else sorted String.ltb tx_note reverse l.

(** Lines 145-151: a row is drawn once its date has been parsed for
    display; the texts of the labels are not modelled. *)
Fixpoint render_rows (idx : nat) (rows : list transaction) : M unit :=
  match rows with
  | [] => mret tt
  | t :: rows' =>
      formatted_date ← lift (strptime_iso (tx_date t));
      show (report_row idx formatted_date t);;
      render_rows (S idx) rows'
  end.

Definition generate_report (sort_by : string) (reverse : bool)
    (start_date end_date category : option string) : M unit :=
  data ← load_data;
  dated ← date_stage start_date end_date (transactions data);
  match dated with
  | None => mret tt
  | Some dated =>
      let sorted_transactions :=
        sort_stage sort_by reverse (category_stage category dated) in
      show (Toplevel sort_by reverse);;
      render_rows 0 sorted_transactions
  end.

(** *** The handlers of the form *)

(** [float(entry.get())] *)
Definition float (s : string) : M A :=
  match float_of_string s with
  | Some a => mret a
  | None => raise (ValueError "could not convert string to float")
  end.

Definition handle_add_transaction (amount_entry category_entry note_entry : string)
    (now : datetime) : M unit :=
  try_except_ValueError
    (amount ← float amount_entry;
     let category := category_entry in
     let note := note_entry in
     if negb (truthy (Some category))
     then raise (ValueError "Категория не может быть пустой.")
     else add_transaction amount category note now)
    (λ e, show (showerror_input e)).

Definition handle_set_limit (limit_category_entry limit_entry : string) : M unit :=
  try_except_ValueError
    (let category := limit_category_entry in
     limit ← float limit_entry;
     if negb (truthy (Some category))
     then raise (ValueError "Категория не может быть пустой.")
     else set_limit category limit)
    (λ e, show (showerror_input e)).

(** Every field of the form arrives as a string, empty when left blank. *)
Definition handle_generate_report (sort_by : string) (reverse : bool)
    (start_date_entry end_date_entry category_combobox : string) : M unit :=
  generate_report sort_by reverse
    (Some start_date_entry) (Some end_date_entry) (Some category_combobox).

(** ** Histories *)

Inductive call :=
  | call_add (amount : A) (category note : string) (now : datetime)
  | call_set_limit (category : string) (limit : A)
  | call_balance
  | call_report (sort_by : string) (reverse : bool)
      (start_date end_date category : option string).

(** The world a call leaves behind, however it ends. *)
Definition exec (c : call) (w : world) : world :=
  match c with
  | call_add amount category note now => (add_transaction amount category note now w).2
  | call_set_limit category limit => (set_limit category limit w).2
  | call_balance => (calculate_balance w).2
  | call_report sort_by reverse start_date end_date category =>
      (generate_report sort_by reverse start_date end_date category w).2
  end.

Definition run (cs : list call) (w : world) : world :=
  fold_left (λ w c, exec c w) cs w.

(** The ledger an operation would load. *)
Definition stored (w : world) : ledger :=
  match file w with
  | Some data => data
  | None => {| transactions := []; limits := ∅ |}
  end.

(** ** Properties of stored data *)

(** The type label agrees with the sign of the amount. *)
Definition type_matches_sign (t : transaction) : Prop :=
  tx_type t = if num_lt (tx_amount t) num_zero then "списание" else "начисление".
End Ledger.

(** ** Exact integers as amounts *)

(** [float(s)] restricted to integer literals: an optional sign and ASCII
    digits. *)
Definition Z_of_string (s : string) : option Z :=
  match list_ascii_of_string s with
  | "-"%char :: (_ :: _) as ds => Z.opp <$> digits_value 0 ds
  | "+"%char :: (_ :: _) as ds => digits_value 0 ds
  | (_ :: _) as ds => digits_value 0 ds
  | [] => None
  end.

#[export] Instance Z_number : PyNumber Z := {|
  num_zero := 0;
  num_add := Z.add;
  num_lt := Z.ltb;
  float_of_string := Z_of_string
|}.

(** ** Binary floating point numbers as amounts *)

(** The number an integer below 2^63 rounds to. *)
Definition float_of_Z (n : Z) : PrimFloat.float := PrimFloat.of_uint63 (Uint63.of_Z n).

(** [float(s)] on an optional sign followed by "nan", by "inf" or by
    decimal digits with at most one point, for up to 18 digits behind the
    point and a digit string below 2^53: there the quotient of the digit
    string and the power of ten, both exact, is the nearest float.  The
    other texts that Python reads (exponents, blanks around the number,
    capitals, underscores, longer literals) are not covered: on them the
    definition answers [None] like on a text Python refuses.  It is used
    on "nan" only. *)
Definition float_of_literal (s : string) : option PrimFloat.float :=
  let cs := list_ascii_of_string s in
  let '(negative, body) :=
    match cs with
    | "-"%char :: body => (true, body)
    | "+"%char :: body => (false, body)
    | _ => (false, cs)
    end in
  magnitude ←
    (if decide (body = list_ascii_of_string "nan") then Some PrimFloat.nan
     else if decide (body = list_ascii_of_string "inf") then Some PrimFloat.infinity
     else
       let '(whole, fraction) :=
         match split_on (lit ".") body with
         | Some (whole, fraction) => (whole, fraction)
         | None => (body, [])
         end in
       match whole ++ fraction with
       | [] => None
       | digits =>
           n ← digits_value 0 digits;
           if (n <? 2 ^ 53) && (Z.of_nat (length fraction) <=? 18)
           then Some (PrimFloat.div (float_of_Z n)
                        (float_of_Z (10 ^ Z.of_nat (length fraction))))
           else None
       end);
  Some (if negative : bool then PrimFloat.opp magnitude else magnitude).

#[export] Instance float_number : PyNumber PrimFloat.float := {|
  num_zero := PrimFloat.zero;
  num_add := PrimFloat.add;
  num_lt := PrimFloat.ltb;
  float_of_string := float_of_literal
|}.

(** ** What a stable sort achieves, and where *)

(** [<] orders the keys that satisfy [P]: no key is below itself, [<]
    carries over from one pair to the next, and so does its absence.  The
    last is what a NaN among floats breaks: it is neither above nor below
    any number. *)
Definition ordered_on {K : Type} (lt : K → K → bool) (P : K → Prop) : Prop :=
  (∀ a, P a → lt a a = false)
  ∧ (∀ a b c, P a → P b → P c → lt a b = true → lt b c = true → lt a c = true)
  ∧ (∀ a b c, P a → P b → P c → lt a b = false → lt b c = false → lt a c = false).

(** [<] orders the keys of a list. *)
Definition ordered_keys {K : Type} (lt : K → K → bool) (ks : list K) : Prop :=
  ordered_on lt (λ k, k ∈ ks).

(** The same, as a test that can be run. *)
Definition ordered_keysb {K : Type} (lt : K → K → bool) (ks : list K) : bool :=
  forallb (λ a, negb (lt a a)) ks
  && forallb (λ a, forallb (λ b, forallb (λ c,
       (negb (lt a b && lt b c) || lt a c)
       && (lt a b || lt b c || negb (lt a c))) ks) ks) ks.

(** [output] is [input] sorted by [key] without moving elements of equal
    key past one another: it has the same elements, the keys never go down
    (never go up, for [reverse]), and the elements of any one key of the
    list come in the order they had in [input]. *)
Definition stably_sorted {T K : Type} (lt : K → K → bool) (key : T → K)
    (reverse : bool) (input output : list T) : Prop :=
  Permutation input output
  ∧ StronglySorted
      (λ a b, (if reverse then lt (key a) (key b) else lt (key b) (key a)) = false)
      output
  ∧ ∀ k, k ∈ key <$> input →
         List.filter (λ t, same lt (key t) k) output
         = List.filter (λ t, same lt (key t) k) input.

(** ** Vocabulary of the statements *)

Section Vocabulary.
Context {A : Type} {number : PyNumber A}.

(** The world before the program has ever run: no file, nothing shown. *)
Definition fresh : world (A:=A) := {| file := None; ui := [] |}.

(** The dictionary [add_transaction] builds at lines 51-58. *)
Definition new_entry (amount : A) (category note : string) (now : datetime)
  : transaction :=
  {| tx_amount := amount;
     tx_category := category;
     tx_note := note;
     tx_date := isoformat now;
     tx_type := if num_lt amount num_zero then "списание" else "начисление" |}.

(** What line 64 compares with the limit: the amounts on file in the
    category, summed, plus the new amount. *)
Definition projected_total (data : ledger) (category : string) (amount : A) : A :=
  num_add
    (sum (tx_amount <$> filter (λ t, tx_category t = category) (transactions data)))
    amount.

(** A bound that is given and that [strptime] refuses. *)
Definition malformed (b : option string) : Prop :=
  truthy b = true ∧ ∃ s e, b = Some s ∧ strptime_dmY s = Raise (ValueError e).

(** A run of [add_transaction] calls. *)
Definition add_calls (adds : list (A * string * string * datetime)) : list call :=
  map (λ '(amount, category, note, now), call_add amount category note now) adds.


(** The transactions of amount [a], in the order of [l]. *)
Definition with_amount (a : A) (l : list transaction) : list transaction :=
  List.filter (λ t, same num_lt (tx_amount t) a) l.

(** The transactions of the rows that have been drawn, in their order. *)
Definition shown_rows (events : list (ui_event (A:=A))) : list (transaction (A:=A)) :=
  omap (λ e, match e with
             | report_row _ _ t => Some t
             | _ => None
             end) events.

(** The rows of a report window, numbered from [idx]. *)
Fixpoint drawn (idx : nat) (rows : list (transaction (A:=A) * datetime))
  : list (ui_event (A:=A)) :=
  match rows with
  | [] => []
  | (t, dt) :: rows' => report_row idx dt t :: drawn (S idx) rows'
  end.
End Vocabulary.

(** ** Sample data *)

Definition noon : datetime :=
  {| year := 2024; month := 9; day := 1;
     hour := 12; minute := 30; second := 45; microsecond := 123456 |}.

Definition morning : datetime :=
  {| year := 2024; month := 6; day := 15;
     hour := 8; minute := 0; second := 0; microsecond := 1 |}.

(** A transaction of 1 September 2024, 12:30:45.123456. *)
Definition lunch : transaction (A:=Z) :=
  {| tx_amount := 100; tx_category := "Food"; tx_note := "lunch";
     tx_date := "2024-09-01T12:30:45.123456"; tx_type := "начисление" |}.

(** Two transactions of the same amount around a smaller one. *)
Definition three_entries : list (transaction (A:=Z)) :=
  [ {| tx_amount := 5; tx_category := "Food"; tx_note := "b";
       tx_date := "2024-09-01T12:30:45.123456"; tx_type := "начисление" |};
    {| tx_amount := 3; tx_category := "Food"; tx_note := "a";
       tx_date := "2024-06-15T08:00:00.000001"; tx_type := "начисление" |};
    {| tx_amount := 5; tx_category := "Rent"; tx_note := "c";
       tx_date := "2024-09-02T09:00:00.000001"; tx_type := "начисление" |} ].

(** Transactions of 1 January, 15 June and 31 December 2024. *)
Definition year_2024 : list (transaction (A:=Z)) :=
  [ {| tx_amount := 1; tx_category := "Food"; tx_note := "";
       tx_date := "2024-01-01T10:00:00.000001"; tx_type := "начисление" |};
    {| tx_amount := 2; tx_category := "Rent"; tx_note := "";
       tx_date := "2024-06-15T10:00:00.000001"; tx_type := "начисление" |};
    {| tx_amount := 3; tx_category := "Food"; tx_note := "";
       tx_date := "2024-12-31T10:00:00.000001"; tx_type := "начисление" |} ].

(** A file with a limit of 10 on "Food" and 8 spent there. *)
Definition food_limited : world (A:=Z) :=
  {| file := Some {| transactions := three_entries; limits := {["Food" := 10]} |};
     ui := [] |}.


(** ** More of the program *)

(** A datetime the constructor accepts; [datetime.now()] returns no other. *)
Definition valid_datetime (dt : datetime) : Prop :=
  make_datetime (year dt) (month dt) (day dt)
    (hour dt) (minute dt) (second dt) (microsecond dt) = Some dt.

(** The characters [zfill] writes. *)
Definition digit_chars : list ascii :=
  ["0"; "1"; "2"; "3"; "4"; "5"; "6"; "7"; "8"; "9"]%char.

Section Form.
Context {A : Type} {number : PyNumber A}.

(** The amounts a history hands to [add_transaction], in order. *)
Definition history_amounts (cs : list (call (A:=A))) : list A :=
  omap (λ c, match c with
             | call_add amount _ _ _ => Some amount
             | _ => None
             end) cs.

(** A bound as the comparison meets it when it is absent or parsed. *)
Definition keeps_from (start_date : option datetime) (dt : datetime) : bool :=
  match start_date with
  | Some s => datetime_le s dt
  | None => true
  end.

Definition keeps_until (end_date : option datetime) (dt : datetime) : bool :=
  match end_date with
  | Some e => datetime_le dt e
  | None => true
  end.

Definition bound_of (b : option datetime) : bound :=
  match b with
  | Some d => PyDatetime d
  | None => PyNone
  end.

(** The transactions whose parsed date passes a test. *)
Definition kept (test : datetime → bool) (l : list (transaction (A:=A) * datetime))
  : list (transaction (A:=A)) :=
  (List.filter (λ p, test p.2) l).*1.

(** A stored date the report can read. *)
Definition readable (t : transaction (A:=A)) : Prop :=
  ∃ dt, strptime_iso (tx_date t) = Return dt.
End Form.

(** A transaction stamped on a whole second, as [isoformat] writes it. *)
Definition bare_second : transaction (A:=Z) :=
  {| tx_amount := 40; tx_category := "Rent"; tx_note := "";
     tx_date := "2024-09-01T12:00:00"; tx_type := "начисление" |}.

Definition lunch_then_bare : world (A:=Z) :=
  {| file := Some {| transactions := [lunch; bare_second]; limits := ∅ |}; ui := [] |}.

Definition lunch_only : world (A:=Z) :=
  {| file := Some {| transactions := [lunch]; limits := ∅ |}; ui := [] |}.

(** A float amount with its note, stamped at noon. *)
Definition entry_of (amount : PrimFloat.float) (note : string) :
    transaction (A:=PrimFloat.float) :=
  {| tx_amount := amount; tx_category := "Food"; tx_note := note;
     tx_date := "2024-09-01T12:30:45.123456"; tx_type := "начисление" |}.

(** A file with a NaN amount (the form stores one when "nan" is typed as
    the amount) between two transactions of 5. *)
Definition nan_file : world (A:=PrimFloat.float) :=
  {| file := Some {| transactions :=
                       [entry_of 6%float "6"; entry_of 7%float "7"; entry_of 8%float "8";
                        entry_of PrimFloat.nan "nan"; entry_of 5%float "first 5";
                        entry_of 2%float "2"; entry_of 5%float "second 5"];
                     limits := ∅ |};
     ui := [] |}.

Definition nan_second_file : world (A:=PrimFloat.float) :=
  {| file := Some {| transactions :=
                       [entry_of 3%float "3"; entry_of PrimFloat.nan "nan";
                        entry_of 1%float "1"; entry_of 2%float "2"];
                     limits := ∅ |};
     ui := [] |}.

(** A file of float amounts without NaN, two of them equal. *)
Definition float_file : world (A:=PrimFloat.float) :=
  {| file := Some {| transactions :=
                       [entry_of 5%float "first 5"; entry_of 2.5%float "2.5";
                        entry_of 5%float "second 5"; entry_of (-1)%float "-1"];
                     limits := ∅ |};
     ui := [] |}.

(** Two transactions whose notes run against their dates. *)
Definition notes_against_dates : world (A:=Z) :=
  {| file := Some {| transactions :=
                       [ {| tx_amount := 1; tx_category := "Food"; tx_note := "z";
                            tx_date := "2024-01-01T10:00:00.000001";
                            tx_type := "начисление" |};
                         {| tx_amount := 2; tx_category := "Food"; tx_note := "a";
                            tx_date := "2024-02-01T10:00:00.000001";
                            tx_type := "начисление" |} ];
                     limits := ∅ |};
     ui := [] |}.

(** A clock reading on a whole second. *)
Definition on_the_second : datetime :=
  {| year := 2024; month := 9; day := 1;
     hour := 12; minute := 0; second := 0; microsecond := 0 |}.

(** * Facts *)

(** ** The orders on strings and integers *)

Lemma ascii_compare_refl (a : ascii) : (a ?= a)%char = Eq.
Proof. unfold Ascii.compare. apply N.compare_refl. Qed.

Lemma ascii_compare_lt_trans (a b c : ascii) :
  (a ?= b)%char = Lt → (b ?= c)%char = Lt → (a ?= c)%char = Lt.
Proof. unfold Ascii.compare. rewrite !N.compare_lt_iff. lia. Qed.

Lemma string_compare_refl (s : string) : (s ?= s)%string = Eq.
Proof. induction s as [|c s IH]; simpl; [done|]. by rewrite ascii_compare_refl. Qed.

Lemma string_compare_lt_trans (a b c : string) :
  (a ?= b)%string = Lt → (b ?= c)%string = Lt → (a ?= c)%string = Lt.
Proof.
  revert b c. induction a as [|ca a IH]; intros [|cb b] [|cc c]; simpl; try done.
  destruct (ca ?= cb)%char eqn:E1; try done;
    destruct (cb ?= cc)%char eqn:E2; try done.
  - apply Ascii.compare_eq_iff in E1, E2. subst.
    rewrite ascii_compare_refl. apply IH.
  - apply Ascii.compare_eq_iff in E1. subst. by rewrite E2.
  - apply Ascii.compare_eq_iff in E2. subst. by rewrite E1.
  - by rewrite (ascii_compare_lt_trans _ _ _ E1 E2).
Qed.

#[export] Instance string_ltb_total : StrictTotal String.ltb.
Proof.
  split; unfold String.ltb.
  - intros a. by rewrite string_compare_refl.
  - intros a b c Hab Hbc.
    destruct (a ?= b)%string eqn:E1; try done.
    destruct (b ?= c)%string eqn:E2; try done.
    by rewrite (string_compare_lt_trans _ _ _ E1 E2).
  - intros a b Hab Hba. apply String.compare_eq_iff.
    rewrite String.compare_antisym in Hba.
    destruct (a ?= b)%string; done.
Qed.

#[export] Instance Z_ltb_total : StrictTotal Z.ltb.
Proof. split; intros; lia. Qed.

#[export] Instance Z_exact : ExactAdd Z.
Proof. split; simpl; intros; lia. Qed.

(** ** [sorted] sorts stably where the keys are ordered *)

Section OrderedFacts.
Local Close Scope Z_scope.
Local Close Scope string_scope.
Context {T K : Type} (lt : K → K → bool) (key : T → K) (P : K → Prop).
Hypothesis ordered : ordered_on lt P.

Implicit Types (x y : T) (l run rest : list T) (a b c k : K).

Let le x y : Prop := lt (key y) (key x) = false.
Let within l : Prop := Forall (λ x, P (key x)) l.

(** [x] may stand before [y] in an ascending list. *)
Lemma lt_asym_on a b : P a → P b → lt a b = true → lt b a = false.
Proof.
  destruct ordered as (Hirr & Htr & _). intros Ha Hb Hab.
  destruct (lt b a) eqn:Hba; [|done].
  by rewrite <- (Hirr a Ha), (Htr a b a).
Qed.

Lemma lt_le_trans_on a b c :
  P a → P b → P c → lt a b = true → lt c b = false → lt a c = true.
Proof.
  destruct ordered as (_ & _ & Hneg). intros Ha Hb Hc Hab Hcb.
  destruct (lt a c) eqn:Hac; [done|]. by rewrite (Hneg a c b) in Hab.
Qed.

Lemma le_lt_trans_on a b c :
  P a → P b → P c → lt b a = false → lt b c = true → lt a c = true.
Proof.
  destruct ordered as (_ & _ & Hneg). intros Ha Hb Hc Hba Hbc.
  destruct (lt a c) eqn:Hac; [done|]. by rewrite (Hneg b a c) in Hbc.
Qed.

Lemma same_refl_on a : P a → same lt a a = true.
Proof. destruct ordered as (Hirr & _). intros Ha. unfold same. by rewrite Hirr. Qed.

Lemma same_sym a b : same lt a b = same lt b a.
Proof. unfold same. apply andb_comm. Qed.

Lemma same_true a b : same lt a b = true ↔ lt a b = false ∧ lt b a = false.
Proof. unfold same. rewrite andb_true_iff, !negb_true_iff. done. Qed.

(** Keys that are the same stand alike to every third key. *)
Lemma same_lt_l a b c : P a → P b → P c → same lt a b = true → lt a c = lt b c.
Proof.
  destruct ordered as (_ & _ & Hneg). intros Ha Hb Hc [Hab Hba]%same_true.
  destruct (lt b c) eqn:Hbc.
  - destruct (lt a c) eqn:Hac; [done|]. by rewrite (Hneg b a c) in Hbc.
  - by apply (Hneg a b c).
Qed.

Lemma same_lt_r a b c : P a → P b → P c → same lt a b = true → lt c a = lt c b.
Proof.
  destruct ordered as (_ & _ & Hneg). intros Ha Hb Hc [Hab Hba]%same_true.
  destruct (lt c b) eqn:Hcb.
  - destruct (lt c a) eqn:Hca; [done|]. by rewrite (Hneg c a b) in Hcb.
  - by apply (Hneg c b a).
Qed.

Lemma same_same a b k : P a → P b → P k → same lt a b = true → same lt a k = same lt b k.
Proof.
  intros Ha Hb Hk Hab. unfold same.
  by rewrite (same_lt_l a b k), (same_lt_r a b k).
Qed.

Lemma filter_none (f : T → bool) l :
  Forall (λ z, f z = false) l → List.filter f l = [].
Proof. induction 1 as [|z l Hz _ IH]; simpl; [done|]. by rewrite Hz. Qed.

Lemma filter_head (f : T → bool) x l :
  List.filter f (x :: l) = if f x then x :: List.filter f l else List.filter f l.
Proof. done. Qed.

Lemma insert_sorted_perm x l : Permutation (x :: l) (insert_sorted lt key x l).
Proof.
  induction l as [|y l IH]; simpl; [done|].
  destruct (lt (key x) (key y)); [done|].
  rewrite <- IH. apply perm_swap.
Qed.

Lemma insert_sorted_within x l :
  P (key x) → within l → within (insert_sorted lt key x l).
Proof.
  intros Hx Hl. unfold within. rewrite <- insert_sorted_perm. by constructor.
Qed.

Lemma insert_sorted_ascending x l :
  P (key x) → within l →
  StronglySorted le l → StronglySorted le (insert_sorted lt key x l).
Proof.
  intros Hx. induction l as [|y l IH]; simpl; intros Hin Hl.
  - repeat constructor.
  - apply Forall_cons in Hin as [Hy Hin].
    apply StronglySorted_inv in Hl as [Hl Hyl].
    destruct (lt (key x) (key y)) eqn:Hxy.
    + constructor; [by constructor|].
      constructor; [by apply lt_asym_on|].
      rewrite Forall_forall in Hyl, Hin |- *. intros z Hz. unfold le.
      apply lt_asym_on; [done|by apply Hin|].
      apply (lt_le_trans_on _ (key y)); [done|done|by apply Hin|done|by apply Hyl].
    + constructor; [by apply IH|].
      rewrite <- (insert_sorted_perm x l). by constructor.
Qed.

(** Inserting [x] puts it behind the elements of its own key. *)
Lemma insert_sorted_filter x l k :
  P (key x) → within l → P k →
  StronglySorted le l →
  List.filter (λ t, same lt (key t) k) (insert_sorted lt key x l)
  = List.filter (λ t, same lt (key t) k) (l ++ [x]).
Proof.
  intros Hx Hin Hk. induction l as [|y l IH]; intros Hl; [done|].
  apply Forall_cons in Hin as [Hy Hin].
  pose proof Hl as [Hl' Hyl]%StronglySorted_inv.
  cbn [insert_sorted]. destruct (lt (key x) (key y)) eqn:Hxy.
  - rewrite List.filter_app, (filter_head _ x (y :: l)).
    assert (Hnone : same lt (key x) k = true →
                    List.filter (λ t, same lt (key t) k) (y :: l) = []).
    { intros Hxk. apply filter_none.
      assert (Forall (λ z, lt (key x) (key z) = true) (y :: l)) as Hlt.
      { constructor; [done|]. rewrite Forall_forall in Hyl, Hin |- *.
        intros z Hz.
        apply (lt_le_trans_on _ (key y)); [done|done|by apply Hin|done|by apply Hyl]. }
      assert (within (y :: l)) as Hin' by by constructor.
      unfold within in Hin'. rewrite Forall_forall in Hlt, Hin' |- *.
      intros z Hz. rewrite same_sym.
      rewrite <- (same_same (key x) k (key z)); [|done|done|by apply Hin'|done].
      unfold same. by rewrite (Hlt z Hz). }
    rewrite (filter_head _ x []). destruct (same lt (key x) k).
    + by rewrite Hnone.
    + apply eq_sym, app_nil_r.
  - change ((y :: l) ++ [x]) with (y :: (l ++ [x])).
    rewrite !(filter_head _ y). by rewrite (IH Hin Hl').
Qed.

(** The loop of linear insertion, started from a sorted prefix. *)
Lemma fold_insert_spec l : ∀ acc,
  within acc → within l → StronglySorted le acc →
  let out := fold_left (λ acc x, insert_sorted lt key x acc) l acc in
  Permutation (acc ++ l) out
  ∧ StronglySorted le out
  ∧ ∀ k, P k → List.filter (λ t, same lt (key t) k) out
               = List.filter (λ t, same lt (key t) k) (acc ++ l).
Proof.
  induction l as [|x l IH]; intros acc Hacc Hl Hs; cbn.
  - by rewrite app_nil_r.
  - apply Forall_cons in Hl as [Hx Hl].
    destruct (IH _ (insert_sorted_within x acc Hx Hacc) Hl
                (insert_sorted_ascending x acc Hx Hacc Hs)) as (Hp & Hs' & Hf).
    split_and!; [|done|].
    + rewrite <- Hp, <- insert_sorted_perm. symmetry. apply Permutation_middle.
    + intros k Hk. rewrite Hf, !List.filter_app, insert_sorted_filter by done.
      change (x :: l) with ([x] ++ l).
      by rewrite !List.filter_app, <- app_assoc.
Qed.

(** *** The binary search finds the place of linear insertion *)

(** Linear insertion ends between the elements not above [x] and those
    above it. *)
Lemma insert_sorted_split x (pre post : list T) :
  Forall (λ y, lt (key x) (key y) = false) pre →
  match post with
  | [] => True
  | y :: _ => lt (key x) (key y) = true
  end →
  insert_sorted lt key x (pre ++ post) = pre ++ x :: post.
Proof.
  induction 1 as [|y pre Hy _ IH]; intros Hpost; cbn.
  - destruct post as [|y post]; [done|]. cbn. by rewrite Hpost.
  - by rewrite Hy, IH.
Qed.

Lemma StronglySorted_lookup (R : T → T → Prop) l : ∀ i j y z,
  StronglySorted R l → (i < j)%nat → l !! i = Some y → l !! j = Some z → R y z.
Proof.
  induction l as [|x l IH]; intros i j y z Hs Hij Hy Hz; [done|].
  apply StronglySorted_inv in Hs as [Hs Hx].
  destruct j as [|j]; [lia|]. cbn in Hz. destruct i as [|i]; cbn in Hy.
  - injection Hy as ->. rewrite Forall_forall in Hx. apply Hx.
    by eapply list_elem_of_lookup_2.
  - apply (IH i j); [done|lia|done..].
Qed.

(** One round of the search. *)
Lemma bisect_step fuel pivot run lo hi :
  bisect lt key (S fuel) pivot run lo hi
  = if lo <? hi then
      match run !! (lo + (hi - lo) / 2)%nat with
      | Some y =>
          if lt (key pivot) (key y)
          then bisect lt key fuel pivot run lo (lo + (hi - lo) / 2)
          else bisect lt key fuel pivot run (S (lo + (hi - lo) / 2)) hi
      | None => lo
      end
    else lo.
Proof. done. Qed.

(** In a sorted run the search stops, within its fuel, at the index that
    has the elements not above [pivot] in front of it and those above it
    behind. *)
Lemma bisect_spec pivot run :
  P (key pivot) → within run → StronglySorted le run →
  ∀ fuel lo hi,
    (lo ≤ hi ≤ length run)%nat → (hi - lo ≤ fuel)%nat →
    (∀ j y, (j < lo)%nat → run !! j = Some y → lt (key pivot) (key y) = false) →
    (∀ j y, (hi ≤ j)%nat → run !! j = Some y → lt (key pivot) (key y) = true) →
    let i := bisect lt key fuel pivot run lo hi in
    (i ≤ length run)%nat
    ∧ (∀ j y, (j < i)%nat → run !! j = Some y → lt (key pivot) (key y) = false)
    ∧ (∀ j y, (i ≤ j)%nat → run !! j = Some y → lt (key pivot) (key y) = true).
Proof.
  intros Hp Hin Hs. unfold within in Hin. rewrite Forall_lookup in Hin.
  assert (Hmono : ∀ i j y z, (i ≤ j)%nat → run !! i = Some y → run !! j = Some z →
                            lt (key z) (key y) = false).
  { intros i j y z Hij Hy Hz. destruct (decide (i = j)) as [->|Hne].
    - rewrite Hy in Hz. injection Hz as ->.
      destruct ordered as (Hirr & _). apply Hirr. by eapply Hin.
    - apply (StronglySorted_lookup le run i j y z); [done|lia|done..]. }
  induction fuel as [|fuel IH]; intros lo hi Hlh Hfuel Hlo Hhi; cbn zeta.
  - cbn. split_and!; [lia|done|]. intros j y Hj. apply Hhi. lia.
  - rewrite bisect_step. destruct (Nat.ltb_spec lo hi) as [Hlt|Hge].
    + set (p := (lo + (hi - lo) / 2)%nat).
      assert (lo ≤ p < hi)%nat as Hpb.
      { subst p. pose proof (Nat.Div0.div_lt_upper_bound (hi - lo) 2 (hi - lo)). lia. }
      destruct (lookup_lt_is_Some_2 run p) as [y Hy]; [lia|]. rewrite Hy.
      destruct (lt (key pivot) (key y)) eqn:Hpy.
      * apply IH; [lia|lia|done|].
        intros j z Hj Hz.
        apply (lt_le_trans_on _ (key y)); [done|by eapply Hin|by eapply Hin|done|].
        by apply (Hmono p j).
      * apply IH; [lia|lia| |done].
        intros j z Hj Hz. destruct ordered as (_ & _ & Hneg).
        apply (Hneg _ (key y)); [done|by eapply Hin|by eapply Hin|done|].
        apply (Hmono j p); [lia|done..].
    + split_and!; [lia|done|]. intros j y Hj. apply Hhi. lia.
Qed.

(** So binary and linear insertion put [x] at the same place. *)
Lemma binary_insert_linear run x :
  P (key x) → within run → StronglySorted le run →
  binary_insert lt key run x = insert_sorted lt key x run.
Proof.
  intros Hx Hin Hs. unfold binary_insert.
  destruct (bisect_spec x run Hx Hin Hs (length run) 0 (length run))
    as (Hi & Hbefore & Hafter); [lia|lia|intros; lia| |].
  { intros j y Hj Hy. apply lookup_lt_Some in Hy. lia. }
  set (i := bisect lt key (length run) x run 0 (length run)) in *.
  rewrite <- (take_drop i run) at 3. symmetry. apply insert_sorted_split.
  - apply Forall_lookup. intros j y Hy.
    apply lookup_take_Some in Hy as [Hy Hj]. by apply (Hbefore j).
  - destruct (drop i run) as [|y post] eqn:Hd; [done|].
    apply (Hafter i); [lia|]. by rewrite <- (Nat.add_0_r i), <- lookup_drop, Hd.
Qed.

Lemma binarysort_linear rest : ∀ run,
  within run → within rest → StronglySorted le run →
  binarysort lt key run rest
  = fold_left (λ acc x, insert_sorted lt key x acc) rest run.
Proof.
  unfold binarysort. induction rest as [|x rest IH]; intros run Hrun Hrest Hs; [done|].
  apply Forall_cons in Hrest as [Hx Hrest]. cbn.
  rewrite (binary_insert_linear run x Hx Hrun Hs).
  apply IH; [by apply insert_sorted_within|done|by apply insert_sorted_ascending].
Qed.

(** *** The first run *)

Let gt x y : Prop := lt (key y) (key x) = true.

(** The elements counted after [prev] are in order. *)
Lemma ascending_run_sorted l : ∀ prev,
  within (prev :: l) →
  StronglySorted le (prev :: take (ascending_run lt key prev l) l).
Proof.
  destruct ordered as (_ & _ & Hneg).
  induction l as [|x l IH]; intros prev Hin; cbn; [repeat constructor|].
  apply Forall_cons in Hin as [Hprev Hin].
  destruct (lt (key x) (key prev)) eqn:Hx; cbn; [repeat constructor|].
  specialize (IH x Hin). pose proof IH as [_ Hxl]%StronglySorted_inv.
  pose proof Hin as [Hkx Hin']%Forall_cons.
  constructor; [done|]. constructor; [done|].
  rewrite Forall_forall in Hxl, Hin' |- *. intros z Hz. unfold le.
  apply (Hneg _ (key x)); [|done|done|by apply Hxl|done].
  apply Hin'. by eapply subseteq_take.
Qed.

Lemma descending_run_sorted l : ∀ prev,
  within (prev :: l) →
  StronglySorted gt (prev :: take (descending_run lt key prev l) l).
Proof.
  destruct ordered as (_ & Htr & _).
  induction l as [|x l IH]; intros prev Hin; cbn; [repeat constructor|].
  apply Forall_cons in Hin as [Hprev Hin].
  destruct (lt (key x) (key prev)) eqn:Hx; cbn; [|repeat constructor].
  specialize (IH x Hin). pose proof IH as [_ Hxl]%StronglySorted_inv.
  pose proof Hin as [Hkx Hin']%Forall_cons.
  constructor; [done|]. constructor; [done|].
  rewrite Forall_forall in Hxl, Hin' |- *. intros z Hz. unfold gt.
  apply (Htr _ (key x)); [|done|done|by apply Hxl|done].
  apply Hin'. by eapply subseteq_take.
Qed.

Lemma StronglySorted_impl_within (R R' : T → T → Prop) l :
  (∀ x y, x ∈ l → y ∈ l → R x y → R' x y) →
  StronglySorted R l → StronglySorted R' l.
Proof.
  intros Himpl Hs. induction Hs as [|x l Hs IH Hx]; [constructor|].
  constructor.
  - apply IH. intros y z Hy Hz. apply Himpl; by right.
  - rewrite Forall_forall in Hx |- *. intros y Hy.
    apply Himpl; [by left|by right|by apply Hx].
Qed.

Lemma StronglySorted_rev (R : T → T → Prop) l :
  StronglySorted R l → StronglySorted (flip R) (rev l).
Proof.
  induction 1 as [|x l Hl IH Hx]; simpl; [constructor|].
  apply StronglySorted_app_2; [|done|repeat constructor].
  intros y z Hy Hz%list_elem_of_singleton. subst z.
  rewrite Forall_forall in Hx. apply Hx.
  apply list_elem_of_In. by apply list_elem_of_In, in_rev in Hy.
Qed.

Lemma within_rev l : within l → within (rev l).
Proof. unfold within. by rewrite <- Permutation_rev. Qed.

(** A strictly descending run, turned round, is ascending. *)
Lemma descending_rev_sorted run :
  within run → StronglySorted gt run → StronglySorted le (rev run).
Proof.
  intros Hin Hs. apply StronglySorted_rev in Hs.
  apply within_rev in Hin. unfold within in Hin. rewrite Forall_forall in Hin.
  eapply StronglySorted_impl_within; [|exact Hs].
  intros x y Hx Hy Hxy. unfold flip, gt in Hxy. unfold le.
  apply lt_asym_on; [by apply Hin|by apply Hin|done].
Qed.

(** It holds at most one element of any key, so turning it round moves no
    two elements of one key past each other. *)
Lemma descending_filter run k :
  within run → P k → StronglySorted gt run →
  List.filter (λ t, same lt (key t) k) (rev run)
  = List.filter (λ t, same lt (key t) k) run.
Proof.
  intros Hin Hk Hs. rewrite filter_rev.
  assert (List.filter (λ t, same lt (key t) k) run = []
          ∨ ∃ x, List.filter (λ t, same lt (key t) k) run = [x]) as [->|[x ->]];
    [|done..].
  induction Hs as [|x run Hs IH Hx]; [by left|].
  apply Forall_cons in Hin as [Hkx Hin]. rewrite filter_head.
  destruct (same lt (key x) k) eqn:Hxk; [|by apply IH].
  right. exists x. f_equal. apply filter_none.
  unfold within in Hin. rewrite Forall_forall in Hx, Hin |- *. intros y Hy.
  rewrite same_sym.
  rewrite <- (same_same (key x) k (key y)); [|done|done|by apply Hin|done].
  unfold same. by rewrite (Hx y Hy), andb_false_r.
Qed.

Lemma count_run_bound l : (fst (count_run lt key l) ≤ length l)%nat.
Proof.
  assert (∀ l prev, (ascending_run lt key prev l ≤ length l)%nat) as Ha.
  { clear l. induction l as [|x l IH]; intros prev; cbn; [lia|].
    destruct (lt (key x) (key prev)); [lia|]. specialize (IH x). lia. }
  assert (∀ l prev, (descending_run lt key prev l ≤ length l)%nat) as Hd.
  { clear l. induction l as [|x l IH]; intros prev; cbn; [lia|].
    destruct (lt (key x) (key prev)); [|lia]. specialize (IH x). lia. }
  destruct l as [|x [|y l]]; cbn; [lia..|].
  destruct (lt (key y) (key x)); cbn; [specialize (Hd l y)|specialize (Ha l y)]; lia.
Qed.

(** The first run, turned round if it was descending, is ascending and
    keeps the elements of every key in their order. *)
Lemma count_run_spec l :
  within l →
  let run := take (fst (count_run lt key l)) l in
  let run' := if snd (count_run lt key l) then rev run else run in
  StronglySorted le run'
  ∧ ∀ k, P k → List.filter (λ t, same lt (key t) k) run'
               = List.filter (λ t, same lt (key t) k) run.
Proof.
  intros Hin. destruct l as [|x [|y l]]; cbn zeta.
  - cbn. split; [constructor|done].
  - cbn. split; [repeat constructor|done].
  - cbn [count_run]. destruct (lt (key y) (key x)) eqn:Hyx; cbn [fst snd].
    + pose proof (descending_run_sorted (y :: l) x Hin) as Hs.
      cbn [descending_run] in Hs. rewrite Hyx in Hs.
      change (take (2 + ?n) (x :: y :: l)) with (x :: take (S n) (y :: l)).
      assert (within (x :: take (S (descending_run lt key y l)) (y :: l))) as Hin'.
      { apply Forall_cons in Hin as [Hx Hin]. constructor; [done|].
        unfold within in Hin. rewrite Forall_forall in Hin |- *.
        intros z Hz. apply Hin. by eapply subseteq_take. }
      split; [by apply descending_rev_sorted|].
      intros k Hk. by apply descending_filter.
    + pose proof (ascending_run_sorted (y :: l) x Hin) as Hs.
      cbn [ascending_run] in Hs. rewrite Hyx in Hs.
      change (take (2 + ?n) (x :: y :: l)) with (x :: take (S n) (y :: l)).
      done.
Qed.

(** *** The sort *)

(** [list_sort] sorts stably, ascending. *)
Lemma list_sort_spec l :
  within l →
  Permutation l (list_sort lt key l)
  ∧ StronglySorted le (list_sort lt key l)
  ∧ ∀ k, P k → List.filter (λ t, same lt (key t) k) (list_sort lt key l)
               = List.filter (λ t, same lt (key t) k) l.
Proof.
  intros Hin. unfold list_sort.
  pose proof (count_run_spec l Hin) as [Hs Hf]. cbn zeta in Hs, Hf.
  destruct (count_run lt key l) as [n descending]. cbn [fst snd] in Hs, Hf.
  set (run := take n l) in *.
  set (run' := if descending then rev run else run) in *.
  assert (Permutation run run') as Hperm.
  { subst run'. destruct descending; [apply Permutation_rev|done]. }
  assert (within run') as Hrun.
  { unfold within. rewrite <- Hperm. subst run. unfold within in Hin.
    rewrite Forall_forall in Hin |- *. intros z Hz. apply Hin.
    by eapply subseteq_take. }
  assert (within (drop n l)) as Hrest.
  { by apply Forall_drop. }
  rewrite (binarysort_linear (drop n l) run' Hrun Hrest Hs).
  destruct (fold_insert_spec (drop n l) run' Hrun Hrest Hs) as (Hp & Hs' & Hf').
  split_and!; [|done|].
  - rewrite <- Hp, <- Hperm. subst run. by rewrite take_drop.
  - intros k Hk. rewrite (Hf' k Hk), List.filter_app, (Hf k Hk).
    rewrite <- List.filter_app. subst run. by rewrite take_drop.
Qed.

(** Both directions of [sorted]. *)
Lemma sorted_spec_on (reverse : bool) l :
  within l →
  Permutation l (sorted lt key reverse l)
  ∧ StronglySorted
      (λ x y, (if reverse then lt (key x) (key y) else lt (key y) (key x)) = false)
      (sorted lt key reverse l)
  ∧ ∀ k, P k → List.filter (λ t, same lt (key t) k) (sorted lt key reverse l)
               = List.filter (λ t, same lt (key t) k) l.
Proof.
  intros Hin. unfold sorted. destruct reverse; [|by apply list_sort_spec].
  destruct (list_sort_spec (rev l) (within_rev l Hin)) as (Hp & Hs & Hf).
  split_and!.
  - by rewrite <- Permutation_rev, <- Hp, <- Permutation_rev.
  - apply StronglySorted_rev in Hs. exact Hs.
  - intros k Hk. by rewrite filter_rev, (Hf k Hk), filter_rev, rev_involutive.
Qed.
End OrderedFacts.

Section SortedFacts.
Local Close Scope Z_scope.
Local Close Scope string_scope.
Context {T K : Type} (lt : K → K → bool) (key : T → K).

Implicit Types (l : list T).

(** A strict total order orders any keys: so are strings and integers
    ordered. *)
Lemma strict_total_ordered {total : StrictTotal lt} (P : K → Prop) : ordered_on lt P.
Proof.
  split_and!.
  - intros a _. apply lt_irrefl.
  - intros a b c _ _ _. apply lt_trans.
  - intros a b c _ _ _ Hab Hbc. destruct (lt a c) eqn:Hac; [|done].
    destruct (lt b a) eqn:Hba.
    + by rewrite (lt_trans b a c Hba Hac) in Hbc.
    + rewrite (lt_connex a b Hab Hba) in Hac. by rewrite Hac in Hbc.
Qed.

(** The test decides for the keys of a list: so floats are checked. *)
Lemma ordered_keysb_sound (ks : list K) :
  ordered_keysb lt ks = true → ordered_keys lt ks.
Proof.
  unfold ordered_keysb. intros [Hirr Hall]%andb_true_iff.
  rewrite forallb_forall in Hirr, Hall.
  assert (∀ a b c, a ∈ ks → b ∈ ks → c ∈ ks →
            (negb (lt a b && lt b c) || lt a c)
            && (lt a b || lt b c || negb (lt a c)) = true) as Habc.
  { intros a b c Ha%list_elem_of_In Hb%list_elem_of_In Hc%list_elem_of_In.
    specialize (Hall a Ha). rewrite forallb_forall in Hall.
    specialize (Hall b Hb). rewrite forallb_forall in Hall. by apply Hall. }
  split_and!.
  - intros a Ha%list_elem_of_In. by apply negb_true_iff, Hirr.
  - intros a b c Ha Hb Hc Hab Hbc. specialize (Habc a b c Ha Hb Hc).
    rewrite Hab, Hbc in Habc. by destruct (lt a c).
  - intros a b c Ha Hb Hc Hab Hbc. specialize (Habc a b c Ha Hb Hc).
    rewrite Hab, Hbc in Habc. by destruct (lt a c).
Qed.

(** The search needs no more rounds than the distance it starts with,
    whatever the comparisons answer: more fuel changes nothing. *)
Lemma bisect_fuel pivot (run : list T) : ∀ fuel fuel' lo hi,
  (hi - lo ≤ fuel)%nat → (hi - lo ≤ fuel')%nat →
  bisect lt key fuel pivot run lo hi = bisect lt key fuel' pivot run lo hi.
Proof.
  induction fuel as [|fuel IH]; intros fuel' lo hi Hfuel Hfuel'.
  - destruct fuel' as [|fuel']; [done|]. rewrite bisect_step.
    by rewrite (proj2 (Nat.ltb_ge lo hi)) by lia.
  - destruct fuel' as [|fuel'].
    + rewrite bisect_step. by rewrite (proj2 (Nat.ltb_ge lo hi)) by lia.
    + rewrite !bisect_step. destruct (lo <? hi)%nat eqn:Hlt; [|done].
      apply Nat.ltb_lt in Hlt.
      assert ((hi - lo) / 2 < hi - lo)%nat by (apply Nat.div_lt; lia).
      destruct (run !! _) as [y|]; [|done].
      destruct (lt (key pivot) (key y)); apply IH; lia.
Qed.

(** Where the keys of the list are ordered, [sorted] sorts it stably. *)
Lemma sorted_ordered (reverse : bool) l :
  ordered_keys lt (key <$> l) →
  stably_sorted lt key reverse l (sorted lt key reverse l).
Proof.
  intros Hord. apply (sorted_spec_on lt key _ Hord reverse l).
  apply Forall_forall. intros x Hx. by apply list_elem_of_fmap_2.
Qed.

(** Whatever the comparison, [sorted] returns the elements it was given. *)
Lemma binary_insert_elements (run : list T) x :
  Permutation (x :: run) (binary_insert lt key run x).
Proof.
  unfold binary_insert. rewrite <- Permutation_middle. by rewrite take_drop.
Qed.

Lemma list_sort_elements l : Permutation l (list_sort lt key l).
Proof.
  unfold list_sort. destruct (count_run lt key l) as [n descending].
  assert (∀ rest run, Permutation (run ++ rest) (binarysort lt key run rest)) as Hb.
  { unfold binarysort. induction rest as [|x rest IH]; intros run; cbn.
    - by rewrite app_nil_r.
    - rewrite <- IH, <- binary_insert_elements. symmetry. apply Permutation_middle. }
  rewrite <- Hb. rewrite <- (take_drop n l) at 1. apply Permutation_app_tail.
  destruct descending; [apply Permutation_rev|done].
Qed.

Lemma sorted_elements (reverse : bool) l : Permutation l (sorted lt key reverse l).
Proof.
  unfold sorted. destruct reverse; [|apply list_sort_elements].
  by rewrite <- Permutation_rev, <- list_sort_elements, <- Permutation_rev.
Qed.

(** A stable sort leaves no choice: two lists in key order with the same
    elements of every key, in the same order, are one list.  Whatever
    algorithm sorts stably gives this list where the keys are ordered. *)
Lemma key_order_unique (ord : K → K → bool) (P : K → Prop) l1 : ∀ l2,
  ordered_on lt P →
  (∀ a b, ord a b = false → ord b a = false → same lt a b = true) →
  Forall (λ x, P (key x)) l1 → Forall (λ x, P (key x)) l2 →
  StronglySorted (λ x y, ord (key y) (key x) = false) l1 →
  StronglySorted (λ x y, ord (key y) (key x) = false) l2 →
  (∀ k, P k → List.filter (λ t, same lt (key t) k) l1
              = List.filter (λ t, same lt (key t) k) l2) →
  l1 = l2.
Proof.
  intros l2 Hord Hsame. revert l2.
  induction l1 as [|x l1 IH]; intros [|y l2] H1 H2 S1 S2 Hf; [done|..].
  - apply Forall_cons in H2 as [Hy _]. specialize (Hf (key y) Hy).
    rewrite filter_head, (same_refl_on lt P Hord) in Hf; done.
  - apply Forall_cons in H1 as [Hx _]. specialize (Hf (key x) Hx).
    rewrite filter_head, (same_refl_on lt P Hord) in Hf; done.
  - apply Forall_cons in H1 as [Hx H1], H2 as [Hy H2].
    apply StronglySorted_inv in S1 as [S1 Hxl], S2 as [S2 Hyl].
    rewrite Forall_forall in Hxl, Hyl.
    assert (Hyx : same lt (key y) (key x) = true).
    { destruct (same lt (key y) (key x)) eqn:Hyx; [done|].
      rewrite <- Hyx, same_sym. apply Hsame.
      - apply (Hyl x). pose proof (Hf (key x) Hx) as Hfx.
        rewrite !filter_head, (same_refl_on lt P Hord), Hyx in Hfx by done.
        apply list_elem_of_In. eapply incl_filter. rewrite <- Hfx. by left.
      - apply (Hxl y). pose proof (Hf (key y) Hy) as Hfy.
        rewrite !filter_head, (same_refl_on lt P Hord), same_sym, Hyx in Hfy by done.
        apply list_elem_of_In. eapply incl_filter. rewrite Hfy. by left. }
    pose proof (Hf (key x) Hx) as Hfx.
    rewrite !filter_head, Hyx, (same_refl_on lt P Hord) in Hfx by done.
    injection Hfx as -> Hfx.
    f_equal. apply IH; [done..|]. intros k Hk. specialize (Hf k Hk).
    rewrite !filter_head in Hf. destruct (same lt (key y) k); [|done].
    by injection Hf.
Qed.

Lemma stably_sorted_unique (reverse : bool) l l1 l2 :
  ordered_keys lt (key <$> l) →
  stably_sorted lt key reverse l l1 → stably_sorted lt key reverse l l2 → l1 = l2.
Proof.
  intros Hord (P1 & S1 & F1) (P2 & S2 & F2).
  assert (∀ l', Permutation l l' → Forall (λ x, key x ∈ key <$> l) l') as Hin.
  { intros l' Hp. rewrite <- Hp. apply Forall_forall. intros x Hx.
    by apply list_elem_of_fmap_2. }
  assert (∀ k, k ∈ key <$> l →
            List.filter (λ t, same lt (key t) k) l1
            = List.filter (λ t, same lt (key t) k) l2) as Hf.
  { intros k Hk. by rewrite F1, F2. }
  destruct reverse.
  - apply (key_order_unique (λ a b, lt b a) (λ k, k ∈ key <$> l) l1 l2);
      [done| |by apply Hin..|done|done|done].
    intros a b Hab Hba. unfold same. by rewrite Hab, Hba.
  - apply (key_order_unique lt (λ k, k ∈ key <$> l) l1 l2);
      [done| |by apply Hin..|done|done|done].
    intros a b Hab Hba. unfold same. by rewrite Hab, Hba.
Qed.
End SortedFacts.

(** ** Floats without NaN are ordered *)

(** [<] on floats is the comparison of IEEE 754, which the library gives as
    [SFltb] on the sign, exponent and mantissa of its arguments. *)
Ltac compare_cases :=
  repeat match goal with
    | H : context [(?a ?= ?b)%Z] |- _ => destruct (Z.compare_spec a b)
    | |- context [(?a ?= ?b)%Z] => destruct (Z.compare_spec a b)
    | H : context [Pos.compare ?a ?b] |- _ => destruct (Pos.compare_spec a b)
    | |- context [Pos.compare ?a ?b] => destruct (Pos.compare_spec a b)
    end.

Lemma SFltb_irrefl f : SFltb f f = false.
Proof.
  unfold SFltb, SFcompare.
  destruct f as [s|s| |s m e]; [by destruct s|by destruct s|done|].
  fold (Pos.compare m m). rewrite Z.compare_refl, Pos.compare_refl. by destruct s.
Qed.

Lemma SFltb_trans f1 f2 f3 :
  SFltb f1 f2 = true → SFltb f2 f3 = true → SFltb f1 f3 = true.
Proof.
  unfold SFltb, SFcompare.
  destruct f1 as [s1|s1| |s1 m1 e1], f2 as [s2|s2| |s2 m2 e2],
           f3 as [s3|s3| |s3 m3 e3];
    try destruct s1; try destruct s2; try destruct s3; try done;
    fold (Pos.compare m1 m2); fold (Pos.compare m2 m3); fold (Pos.compare m1 m3);
    compare_cases; cbn; try done; try lia.
Qed.

(** Numbers that are not below one another are not below a third: this is
    where a NaN, below nothing and above nothing, has to be kept out. *)
Lemma SFltb_negtrans f1 f2 f3 :
  f1 ≠ S754_nan → f2 ≠ S754_nan → f3 ≠ S754_nan →
  SFltb f1 f2 = false → SFltb f2 f3 = false → SFltb f1 f3 = false.
Proof.
  unfold SFltb, SFcompare.
  destruct f1 as [s1|s1| |s1 m1 e1], f2 as [s2|s2| |s2 m2 e2],
           f3 as [s3|s3| |s3 m3 e3];
    try destruct s1; try destruct s2; try destruct s3; try done;
    fold (Pos.compare m1 m2); fold (Pos.compare m2 m3); fold (Pos.compare m1 m3);
    compare_cases; cbn; try done; try lia.
Qed.

(** [x == x] fails for a NaN only. *)
Lemma not_nan_spec (x : PrimFloat.float) :
  PrimFloat.eqb x x = true → Prim2SF x ≠ S754_nan.
Proof.
  rewrite FloatAxioms.eqb_spec. intros Heq Hnan. by rewrite Hnan in Heq.
Qed.

(** So [<] orders the floats of any list without a NaN. *)
Lemma floats_without_nan_ordered (ks : list PrimFloat.float) :
  Forall (λ x, PrimFloat.eqb x x = true) ks → ordered_keys PrimFloat.ltb ks.
Proof.
  rewrite Forall_forall. intros Hks. unfold ordered_keys, ordered_on. split_and!.
  - intros a _. rewrite ltb_spec. apply SFltb_irrefl.
  - intros a b c _ _ _. rewrite !ltb_spec. apply SFltb_trans.
  - intros a b c Ha Hb Hc. rewrite !ltb_spec.
    apply SFltb_negtrans; apply not_nan_spec; by apply Hks.
Qed.

(** ** The operations on the world *)

Section LedgerFacts.
Context {A : Type} {number : PyNumber A}.

Implicit Types (w : world (A:=A)) (amount limit : A) (category note : string).
Implicit Types (l rows : list (transaction (A:=A))).

(** Unfolds the plumbing of the monad. *)
Ltac run_M :=
  unfold mbind, M_bind, mret, M_ret, raise, lift, show, save_data, load_data, stored;
  cbn.

Lemma load_data_run w : load_data w = (Return (stored w), w).
Proof. unfold load_data, stored. by destruct (file w). Qed.

(** All of what [add_transaction] does. *)
Lemma add_transaction_run amount category note now w :
  add_transaction amount category note now w
  = (Return tt,
     {| file := Some {| transactions :=
                          transactions (stored w) ++ [new_entry amount category note now];
                        limits := limits (stored w) |};
        ui := ui w
              ++ match limits (stored w) !! category with
                 | Some category_limit =>
                     if num_lt category_limit (projected_total (stored w) category amount)
                     then [showwarning_limit category
                             (projected_total (stored w) category amount)
                             category_limit]
                     else []
                 | None => []
                 end
              ++ [showinfo_added (tx_type (new_entry amount category note now))] |}).
Proof.
  unfold add_transaction, projected_total, new_entry. run_M.
  destruct (file w) as [data|]; cbn.
  - destruct (limits data !! category) as [category_limit|]; cbn.
    + destruct (num_lt category_limit _); cbn; by rewrite <- ?app_assoc.
    + done.
  - by rewrite lookup_empty.
Qed.

Lemma set_limit_run category limit w :
  set_limit category limit w
  = if num_lt limit num_zero
    then (Raise (ValueError "Лимит не может быть отрицательным."), w)
    else (Return tt,
          {| file := Some {| transactions := transactions (stored w);
                             limits := <[category := limit]> (limits (stored w)) |};
             ui := ui w ++ [showinfo_limit category limit] |}).
Proof.
  unfold set_limit. destruct (num_lt limit num_zero); run_M; [done|].
  by destruct (file w).
Qed.

Lemma calculate_balance_run w :
  calculate_balance w = (Return (sum (tx_amount <$> transactions (stored w))), w).
Proof. unfold calculate_balance. run_M. by destruct (file w). Qed.

(** *** The report never writes *)

Lemma render_rows_file rows : ∀ idx w, file (render_rows idx rows w).2 = file w.
Proof.
  induction rows as [|t rows IH]; intros idx w; [done|].
  cbn [render_rows]. run_M.
  destruct (strptime_iso (tx_date t)); cbn; [|done].
  by rewrite IH.
Qed.

Lemma date_stage_file start_date end_date l w :
  file (date_stage start_date end_date l w).2 = file w.
Proof.
  unfold date_stage, try_except_ValueError.
  destruct (truthy start_date || truthy end_date); [|done]. run_M.
  by destruct (date_filter start_date end_date l) as [?|[?|?]].
Qed.

Lemma generate_report_file sort_by reverse start_date end_date
    (category : option string) w :
  file (generate_report sort_by reverse start_date end_date category w).2 = file w.
Proof.
  unfold generate_report.
  unfold mbind at 1. unfold M_bind at 1. rewrite load_data_run.
  unfold mbind at 1. unfold M_bind at 1.
  pose proof (date_stage_file start_date end_date (transactions (stored w)) w) as Hd.
  destruct (date_stage _ _ _ w) as [[[dated|]|e] w']; cbn in Hd |- *; try done.
  unfold mbind, M_bind, show. cbn. by rewrite render_rows_file.
Qed.

(** *** Malformed bounds *)

Lemma strptime_dmY_raises s e : strptime_dmY s = Raise e → ∃ msg, e = ValueError msg.
Proof.
  unfold strptime_dmY, strptime_error.
  destruct (parse_dmY _); [done|]. intros [= <-]. eauto.
Qed.

Lemma parse_bound_raises b e : parse_bound b = Raise e → ∃ msg, e = ValueError msg.
Proof.
  destruct b as [s|]; [|done]. unfold parse_bound.
  destruct (truthy (Some s)); [|done].
  destruct (strptime_dmY s) eqn:Hs; [done|]. cbn. intros [= <-].
  by eapply strptime_dmY_raises.
Qed.

Lemma parse_bound_malformed b : malformed b → ∃ msg, parse_bound b = Raise (ValueError msg).
Proof.
  intros (Ht & s & e & -> & Hs). unfold parse_bound. rewrite Ht, Hs. cbn. eauto.
Qed.

Lemma date_filter_malformed start_date end_date l :
  malformed start_date ∨ malformed end_date →
  ∃ msg, date_filter start_date end_date l = Raise (ValueError msg).
Proof.
  unfold date_filter. intros [Hm|Hm].
  - destruct (parse_bound_malformed _ Hm) as [msg ->]. cbn. eauto.
  - destruct (parse_bound start_date) as [b|e] eqn:Hb; cbn.
    + destruct (parse_bound_malformed _ Hm) as [msg ->]. cbn. eauto.
    + destruct (parse_bound_raises _ _ Hb) as [msg ->]. eauto.
Qed.

Lemma malformed_truthy b : malformed b → truthy b = true.
Proof. by intros [? _]. Qed.

(** *** Histories only ever append *)

Lemma new_entry_type amount category note now :
  type_matches_sign (new_entry amount category note now).
Proof. done. Qed.

Lemma exec_appends (c : call) w :
  ∃ extra, transactions (stored (exec c w)) = transactions (stored w) ++ extra
           ∧ Forall type_matches_sign extra.
Proof.
  destruct c as [amount category note now|category limit| |]; cbn [exec].
  - rewrite add_transaction_run. cbn. eexists. split; [done|].
    repeat constructor.
  - rewrite set_limit_run. destruct (num_lt limit num_zero); cbn.
    + exists []. by rewrite app_nil_r.
    + exists []. by rewrite app_nil_r.
  - rewrite calculate_balance_run. exists []. by rewrite app_nil_r.
  - exists []. unfold stored. rewrite generate_report_file.
    by rewrite app_nil_r.
Qed.

Lemma run_cons (c : call) (cs : list call) w : run (c :: cs) w = run cs (exec c w).
Proof. done. Qed.

Lemma run_appends (cs : list call) : ∀ w,
  ∃ extra, transactions (stored (run cs w)) = transactions (stored w) ++ extra
           ∧ Forall type_matches_sign extra.
Proof.
  induction cs as [|c cs IH]; intros w.
  - exists []. by rewrite app_nil_r.
  - rewrite run_cons. destruct (IH (exec c w)) as (e2 & -> & H2).
    destruct (exec_appends c w) as (e1 & -> & H1).
    exists (e1 ++ e2). split; [by rewrite app_assoc|].
    by apply Forall_app.
Qed.

Lemma run_add_calls (adds : list (A * string * string * datetime)) : ∀ w,
  transactions (stored (run (add_calls adds) w))
  = transactions (stored w)
    ++ map (λ '(amount, category, note, now), new_entry amount category note now) adds.
Proof.
  induction adds as [|[[[amount category] note] now] adds IH]; intros w.
  - cbn. by rewrite app_nil_r.
  - cbn [add_calls map]. rewrite run_cons. fold (add_calls adds).
    rewrite IH. cbn [exec]. rewrite add_transaction_run. cbn.
    by rewrite <- app_assoc.
Qed.

(** *** Sums *)

Lemma fold_add_from {exact : ExactAdd A} (l : list A) : ∀ b,
  fold_left num_add l b = num_add b (sum l).
Proof.
  unfold sum. induction l as [|a l IH]; intros b; cbn.
  - by rewrite num_add_0_r.
  - rewrite (IH (num_add b a)), (IH (num_add num_zero a)).
    by rewrite num_add_0_l, num_add_assoc.
Qed.

Lemma sum_app {exact : ExactAdd A} (l1 l2 : list A) :
  sum (l1 ++ l2) = num_add (sum l1) (sum l2).
Proof. unfold sum at 1. rewrite fold_left_app. apply fold_add_from. Qed.
End LedgerFacts.

(** * The claims *)

Section Claims.
Context {A : Type} {number : PyNumber A}.

Implicit Types (w : world (A:=A)) (amount limit : A) (category note : string).
Implicit Types (l : list (transaction (A:=A))).

(** The form refuses an empty category before [add_transaction] is
    reached: an error box is shown and the file is left alone. *)
Lemma handle_add_transaction_empty_category amount_entry note now w :
  ∃ e, handle_add_transaction amount_entry "" note now w
       = (Return tt, {| file := file w; ui := ui w ++ [showerror_input e] |}).
Proof.
  unfold handle_add_transaction, try_except_ValueError, float.
  unfold mbind, M_bind, mret, M_ret, raise, show.
  destruct (float_of_string amount_entry); cbn; eauto.
Qed.

(** [add_transaction] itself takes any category, the empty one included. *)
Lemma add_transaction_any_category amount category note now w :
  (add_transaction amount category note now w).1 = Return tt
  ∧ transactions (stored (add_transaction amount category note now w).2)
    = transactions (stored w) ++ [new_entry amount category note now].
Proof. by rewrite add_transaction_run. Qed.

(** C2. Whatever the ledger and the arguments, [add_transaction] returns
    normally and the file then holds the old transactions followed by the
    new one, under the old limits; and when the category has a limit that
    the amounts on file in that category plus the new amount exceed, the
    warning box is shown just before the confirmation. *)
Theorem limit_is_advisory w amount category note now :
  let r := add_transaction amount category note now w in
  r.1 = Return tt
  ∧ file r.2 = Some {| transactions :=
                         transactions (stored w) ++ [new_entry amount category note now];
                       limits := limits (stored w) |}
  ∧ ∀ category_limit,
      limits (stored w) !! category = Some category_limit →
      num_lt category_limit (projected_total (stored w) category amount) = true →
      ui r.2 = ui w ++ [showwarning_limit category
                          (projected_total (stored w) category amount) category_limit;
                        showinfo_added (tx_type (new_entry amount category note now))].
Proof.
  cbn zeta. rewrite add_transaction_run. cbn. split_and!; [done..|].
  intros category_limit -> ->. done.
Qed.

(** C6. After [add_transaction] the file holds exactly one transaction
    more; the last one carries the amount given and the label "списание"
    when that amount is below zero, "начисление" otherwise; and no history
    of calls breaks the agreement of label and sign among the stored
    transactions. *)
Theorem add_transaction_count_and_type w amount category note now :
  let r := add_transaction amount category note now w in
  r.1 = Return tt
  ∧ length (transactions (stored r.2)) = S (length (transactions (stored w)))
  ∧ (∃ t, last (transactions (stored r.2)) = Some t
          ∧ tx_amount t = amount
          ∧ tx_type t = if num_lt amount num_zero then "списание" else "начисление")
  ∧ ∀ cs : list call,
      Forall type_matches_sign (transactions (stored w)) →
      Forall type_matches_sign (transactions (stored (run cs w))).
Proof.
  cbn zeta. rewrite add_transaction_run. cbn. split_and!.
  - done.
  - rewrite length_app. cbn. lia.
  - eexists. by rewrite last_snoc.
  - intros cs Hw. destruct (run_appends cs w) as (extra & -> & Hextra).
    by apply Forall_app.
Qed.

(** C7. A limit below zero makes [set_limit] raise ValueError and leaves
    the world as it was; any other limit is stored under the category,
    replacing what was there, while the other limits and the transactions
    stay. *)
Theorem set_limit_negative_or_stored w category limit :
  (num_lt limit num_zero = true →
     ∃ msg, set_limit category limit w = (Raise (ValueError msg), w))
  ∧ (num_lt limit num_zero = false →
     let r := set_limit category limit w in
     r.1 = Return tt
     ∧ file r.2 = Some {| transactions := transactions (stored w);
                          limits := <[category := limit]> (limits (stored w)) |}
     ∧ limits (stored r.2) !! category = Some limit
     ∧ ∀ other, other ≠ category →
         limits (stored r.2) !! other = limits (stored w) !! other).
Proof.
  rewrite set_limit_run. split; intros ->; [eauto|].
  cbn. split_and!; [done..| |].
  - apply lookup_insert_eq.
  - intros other Hne. by apply lookup_insert_ne.
Qed.

(** C10. [add_transaction] leaves the limits as they were and the stored
    transactions in place: the new sequence is the old one with one
    transaction added at the end, so every index that held a transaction
    still holds the same one. *)
Theorem add_transaction_frame w amount category note now :
  let r := add_transaction amount category note now w in
  limits (stored r.2) = limits (stored w)
  ∧ (∃ t, transactions (stored r.2) = transactions (stored w) ++ [t])
  ∧ ∀ (i : nat) t, transactions (stored w) !! i = Some t →
                   transactions (stored r.2) !! i = Some t.
Proof.
  cbn zeta. rewrite add_transaction_run. cbn. split_and!; [done|eauto|].
  intros i t Hi. by apply lookup_app_l_Some.
Qed.



(** C8. When a bound that is given does not parse as a date, the report
    ends with the error box alone: no window, no rows, and the file as it
    was. *)
Theorem malformed_bound_fails_report sort_by reverse start_date end_date
    (category : option string) w :
  malformed start_date ∨ malformed end_date →
  generate_report sort_by reverse start_date end_date category w
  = (Return tt, {| file := file w; ui := ui w ++ [showerror_date] |}).
Proof.
  intros Hm. unfold generate_report.
  unfold mbind at 1. unfold M_bind at 1. rewrite load_data_run.
  unfold mbind at 1. unfold M_bind at 1.
  unfold date_stage, try_except_ValueError.
  assert (truthy start_date || truthy end_date = true) as ->.
  { destruct Hm as [Hm|Hm]; rewrite (malformed_truthy _ Hm);
      [done|apply orb_true_r]. }
  destruct (date_filter_malformed _ _ (transactions (stored w)) Hm) as [msg Hf].
  unfold mbind, M_bind, lift. rewrite Hf. done.
Qed.

End Claims.

(** ** What the date filter compares *)

Section DateFacts.
Context {A : Type}.

Implicit Types (t : transaction (A:=A)) (dt e : datetime).

Lemma make_datetime_Some Y m d H M sec f dt :
  make_datetime Y m d H M sec f = Some dt →
  dt = {| year := Y; month := m; day := d;
          hour := H; minute := M; second := sec; microsecond := f |}
  ∧ 0 <= H ∧ 0 <= M ∧ 0 <= sec ∧ 0 <= f.
Proof.
  unfold make_datetime. case_match eqn:Hc; [|done]. intros [= <-].
  repeat (apply andb_true_iff in Hc as [Hc ?]). split; [done|lia].
Qed.

(** A parsed bound is the midnight that starts its day. *)
Lemma strptime_dmY_midnight s e :
  strptime_dmY s = Return e →
  hour e = 0 ∧ minute e = 0 ∧ second e = 0 ∧ microsecond e = 0.
Proof.
  unfold strptime_dmY, strptime_error, parse_dmY.
  destruct (split_on _ _) as [[td s1]|]; cbn; [|done].
  destruct (split_on _ _) as [[tm tY]|]; cbn; [|done].
  destruct (re_d td); cbn; [|done].
  destruct (re_m tm); cbn; [|done].
  destruct (re_Y tY); cbn; [|done].
  destruct (make_datetime _ _ _ _ _ _ _) eqn:Hm; [|done].
  intros [= <-]. by apply make_datetime_Some in Hm as [-> _].
Qed.

(** With an end bound alone, a transaction is kept when its timestamp is
    no later than the bound, time of day included. *)
Lemma in_date_range_end e t dt :
  strptime_iso (tx_date t) = Return dt →
  in_date_range PyNone (PyDatetime e) t = Return (datetime_le dt e).
Proof. intros Ht. unfold in_date_range. cbn. by rewrite Ht. Qed.

Lemma in_date_range_start e t dt :
  strptime_iso (tx_date t) = Return dt →
  in_date_range (PyDatetime e) PyNone t = Return (datetime_le e dt).
Proof.
  intros Ht. unfold in_date_range. cbn. rewrite Ht. cbn.
  by destruct (datetime_le e dt).
Qed.

(** Against a midnight, a timestamp later on the same day is too late. *)
Lemma datetime_le_same_day dt e :
  date_of dt = date_of e →
  hour e = 0 → minute e = 0 → second e = 0 → microsecond e = 0 →
  0 <= hour dt → 0 <= minute dt → 0 <= second dt → 0 <= microsecond dt →
  0 < hour dt + minute dt + second dt + microsecond dt →
  datetime_le dt e = false.
Proof.
  unfold date_of, datetime_le, datetime_compare.
  intros [= -> -> ->] -> -> -> -> Hh Hm Hs Hf Hpos.
  rewrite !Z.compare_refl.
  destruct (Z.compare_spec (hour dt) 0) as [E1| |]; [|lia|done].
  destruct (Z.compare_spec (minute dt) 0) as [E2| |]; [|lia|done].
  destruct (Z.compare_spec (second dt) 0) as [E3| |]; [|lia|done].
  destruct (Z.compare_spec (microsecond dt) 0) as [E4| |]; [lia|lia|done].
Qed.

(** From a midnight on, the comparison is the comparison of the days. *)
Lemma datetime_le_from_midnight e dt :
  hour e = 0 → minute e = 0 → second e = 0 → microsecond e = 0 →
  0 <= hour dt → 0 <= minute dt → 0 <= second dt → 0 <= microsecond dt →
  datetime_le e dt = date_le (date_of e) (date_of dt).
Proof.
  unfold date_of, date_le, datetime_le, datetime_compare.
  intros -> -> -> -> Hh Hm Hs Hf.
  destruct (year e ?= year dt); try done.
  destruct (month e ?= month dt); try done.
  destruct (Z.compare_spec (day e) (day dt)) as [E| |];
    [rewrite (proj2 (Z.leb_le _ _)) by lia
    |by rewrite (proj2 (Z.leb_le _ _)) by lia
    |by rewrite (proj2 (Z.leb_gt _ _)) by lia].
  destruct (Z.compare_spec 0 (hour dt)); [|done|lia].
  destruct (Z.compare_spec 0 (minute dt)); [|done|lia].
  destruct (Z.compare_spec 0 (second dt)); [|done|lia].
  by destruct (Z.compare_spec 0 (microsecond dt)); [| |lia].
Qed.

Lemma strptime_iso_time s dt :
  strptime_iso s = Return dt →
  0 <= hour dt ∧ 0 <= minute dt ∧ 0 <= second dt ∧ 0 <= microsecond dt.
Proof.
  unfold strptime_iso, strptime_error, parse_iso.
  repeat (destruct (split_on _ _) as [[? ?]|]; cbn; [|done]).
  destruct (re_Y _); cbn; [|done].
  destruct (re_m _); cbn; [|done].
  destruct (re_d _); cbn; [|done].
  destruct (re_H _); cbn; [|done].
  destruct (re_M _); cbn; [|done].
  destruct (re_S _); cbn; [|done].
  destruct (re_f _); cbn; [|done].
  destruct (make_datetime _ _ _ _ _ _ _) eqn:Hm; [|done].
  intros [= <-]. by apply make_datetime_Some in Hm as [-> ?].
Qed.

(** The start bound keeps the transactions of its day and of later days. *)
Lemma start_bound_keeps_by_day s e t dt :
  strptime_dmY s = Return e →
  strptime_iso (tx_date t) = Return dt →
  in_date_range (PyDatetime e) PyNone t = Return (date_le (date_of e) (date_of dt)).
Proof.
  intros (? & ? & ? & ?)%strptime_dmY_midnight Ht.
  rewrite (in_date_range_start _ _ _ Ht). f_equal.
  destruct (strptime_iso_time _ _ Ht) as (? & ? & ? & ?).
  by apply datetime_le_from_midnight.
Qed.

(** The end bound leaves out the transactions of its own day, all but one
    stamped at midnight sharp. *)
Lemma end_bound_drops_its_day s e t dt :
  strptime_dmY s = Return e →
  strptime_iso (tx_date t) = Return dt →
  date_of dt = date_of e →
  0 < hour dt + minute dt + second dt + microsecond dt →
  in_date_range PyNone (PyDatetime e) t = Return false.
Proof.
  intros (? & ? & ? & ?)%strptime_dmY_midnight Ht Hd ?.
  rewrite (in_date_range_end _ _ _ Ht). f_equal.
  destruct (strptime_iso_time _ _ Ht) as (? & ? & ? & ?).
  by apply datetime_le_same_day.
Qed.
End DateFacts.

(** ** What the report window shows *)

Section ReportFacts.
Context {A : Type} {number : PyNumber A}.

Implicit Types (w : world (A:=A)) (rows : list (transaction (A:=A))).

Lemma render_rows_drawn rows : ∀ (dts : list datetime) idx w,
  Forall2 (λ t dt, strptime_iso (tx_date t) = Return dt) rows dts →
  render_rows idx rows w
  = (Return tt, {| file := file w; ui := ui w ++ drawn idx (zip rows dts) |}).
Proof.
  induction rows as [|t rows IH]; intros dts idx w Hd.
  - apply Forall2_nil_inv_l in Hd as ->. cbn. rewrite app_nil_r.
    by destruct w.
  - apply Forall2_cons_inv_l in Hd as (dt & dts' & Ht & Hd & ->).
    cbn [render_rows zip zip_with drawn].
    unfold mbind, M_bind, lift, show. rewrite Ht.
    rewrite (IH dts' (S idx) _ Hd). cbn. by rewrite <- app_assoc.
Qed.

(** Without date bounds the window shows, under its title, the stored
    transactions of the category, sorted, one row each. *)
Lemma generate_report_draws sort_by reverse (category : option string) w dts :
  let rows := sort_stage sort_by reverse
                (category_stage category (transactions (stored w))) in
  Forall2 (λ t dt, strptime_iso (tx_date t) = Return dt) rows dts →
  generate_report sort_by reverse None None category w
  = (Return tt,
     {| file := file w;
        ui := ui w ++ Toplevel sort_by reverse :: drawn 0 (zip rows dts) |}).
Proof.
  intros rows Hd. unfold generate_report.
  unfold mbind at 1. unfold M_bind at 1. rewrite load_data_run.
  unfold date_stage. cbn [truthy orb].
  unfold mbind, M_bind, mret, M_ret, show. cbn.
  fold rows. rewrite (render_rows_drawn rows dts 0%nat _ Hd). cbn.
  by rewrite <- app_assoc.
Qed.

(** The documented default, [sort_by="date"], is not one of the three
    texts the code knows: it sorts by note. *)
Lemma sort_stage_default (reverse : bool) rows :
  sort_stage "date" reverse rows = sorted String.ltb tx_note reverse rows.
Proof. done. Qed.
End ReportFacts.

(** * The claims on sample data *)

(** C1 (defect of the code). The docstring of [add_transaction] announces a
    ValueError for a missing category, and the form refuses one; the
    function itself, called with 100 and the empty category on a fresh
    ledger, returns normally, stores the transaction and confirms it. *)
Example add_transaction_empty_category_stored :
  add_transaction (A:=Z) 100 "" "" noon fresh
  = (Return tt,
     {| file := Some {| transactions :=
                          [ {| tx_amount := 100; tx_category := ""; tx_note := "";
                               tx_date := "2024-09-01T12:30:45.123456";
                               tx_type := "начисление" |} ];
                        limits := ∅ |};
        ui := [showinfo_added "начисление"] |}).
Proof. rewrite add_transaction_run. reflexivity. Qed.

(** C3 (defect of the code). A transaction of 1 September 2024, 12:30:45,
    lies on the day of the end bound "01.09.2024", yet a report with that
    end bound opens its window with no row: the bound is the midnight that
    starts the day, and the whole timestamp is compared with it. *)
Example report_drops_end_day :
  generate_report (A:=Z) "дата" false None (Some "01.09.2024") None
    {| file := Some {| transactions := [lunch]; limits := ∅ |}; ui := [] |}
  = (Return tt,
     {| file := Some {| transactions := [lunch]; limits := ∅ |};
        ui := [Toplevel "дата" false] |})
  ∧ strptime_iso (tx_date lunch) = Return noon
  ∧ ∃ e, strptime_dmY "01.09.2024" = Return e
         ∧ date_le (date_of noon) (date_of e) = true.
Proof.
  split_and!; [by vm_compute|by vm_compute|].
  eexists. split; by vm_compute.
Qed.

(** From the form, a bound left blank arrives as the empty string; with
    the other bound given, the comparison with it raises TypeError, which
    nothing catches. *)
Example report_blank_start_raises :
  (handle_generate_report (A:=Z) "дата" false "" "01.09.2024" ""
     {| file := Some {| transactions := [lunch]; limits := ∅ |}; ui := [] |}).1
  = Raise (not_supported ">=").
Proof. by vm_compute. Qed.

(** Stored dates without a fraction, as [isoformat] writes them on a whole
    second, do not parse with the format of the filter. *)
Example whole_second_not_parsed :
  strptime_iso
    (isoformat {| year := 2024; month := 9; day := 1;
                  hour := 12; minute := 0; second := 0; microsecond := 0 |})
  = Raise (ValueError "time data does not match format").
Proof. by vm_compute. Qed.

(** ** The formats and the filters on samples *)

Example strptime_dmY_padded :
  strptime_dmY "01.09.2024"
  = Return {| year := 2024; month := 9; day := 1;
              hour := 0; minute := 0; second := 0; microsecond := 0 |}.
Proof. reflexivity. Qed.

Example strptime_dmY_unpadded :
  strptime_dmY "1.9.2024" = strptime_dmY "01.09.2024".
Proof. reflexivity. Qed.

Example strptime_dmY_no_such_day :
  strptime_dmY "30.02.2024" = Raise (ValueError "time data does not match format").
Proof. reflexivity. Qed.

Example strptime_dmY_other_format :
  strptime_dmY "2024-09-01" = Raise (ValueError "time data does not match format").
Proof. reflexivity. Qed.

Example strptime_iso_of_isoformat : strptime_iso (isoformat noon) = Return noon.
Proof. reflexivity. Qed.

(** Between 1 March and 1 September only the transaction of 15 June is
    kept. *)
Example date_filter_inner_day :
  date_filter (Some "01.03.2024") (Some "01.09.2024") year_2024
  = Return (List.filter (λ t, tx_amount t =? 2) year_2024).
Proof. reflexivity. Qed.

Example category_stage_food :
  tx_amount <$> category_stage (Some "Food") year_2024 = [1; 3].
Proof. reflexivity. Qed.

(** ** Instances of the conditional statements *)

Lemma limit_is_advisory_witness :
  ui (add_transaction (A:=Z) 5 "Food" "" noon food_limited).2
  = [showwarning_limit "Food" 13 10; showinfo_added "начисление"].
Proof.
  destruct (limit_is_advisory food_limited 5 "Food" "" noon) as (_ & _ & Hw).
  apply (Hw 10); reflexivity.
Defined.

Lemma add_transaction_count_and_type_witness :
  length (transactions (stored (add_transaction (A:=Z) (-200) "Food" "" noon fresh).2))
  = 1%nat
  ∧ Forall type_matches_sign
      (transactions (stored (run [call_add 500 "Food" "" morning;
                                  call_add (-200) "Food" "" noon] fresh))).
Proof.
  destruct (add_transaction_count_and_type (A:=Z) fresh (-200) "Food" "" noon)
    as (_ & Hlen & _ & Hinv).
  split; [exact Hlen|]. apply Hinv. constructor.
Defined.

Lemma set_limit_negative_or_stored_witness :
  (∃ msg, set_limit (A:=Z) "Food" (-1) food_limited
          = (Raise (ValueError msg), food_limited))
  ∧ limits (stored (set_limit (A:=Z) "Food" 1000 food_limited).2) !! "Food"
    = Some 1000.
Proof.
  split.
  - apply (set_limit_negative_or_stored food_limited "Food" (-1)). reflexivity.
  - apply (set_limit_negative_or_stored food_limited "Food" 1000). reflexivity.
Defined.

Lemma add_transaction_frame_witness :
  transactions (stored (add_transaction (A:=Z) 7 "Rent" "" noon food_limited).2) !! 1%nat
  = three_entries !! 1%nat.
Proof.
  destruct (add_transaction_frame food_limited 7 "Rent" "" noon) as (_ & _ & Hi).
  apply Hi. reflexivity.
Defined.


Lemma malformed_bound_fails_report_witness :
  generate_report (A:=Z) "дата" false (Some "2024-09-01") None None food_limited
  = (Return tt, {| file := file food_limited; ui := [showerror_date] |}).
Proof.
  apply (malformed_bound_fails_report (A:=Z) "дата" false (Some "2024-09-01")
           None None food_limited).
  left. split; [reflexivity|].
  eexists _, _. split; [reflexivity|]. vm_compute. reflexivity.
Defined.

(** What these sorts give on the sample. *)
Example amount_sort_descending :
  tx_note <$> sort_stage "сумма" true three_entries = ["b"; "c"; "a"].
Proof. reflexivity. Qed.

Example amount_sort_ascending :
  tx_note <$> sort_stage "сумма" false three_entries = ["a"; "b"; "c"].
Proof. reflexivity. Qed.

(** * Further properties of the program *)

(** ** The handlers, the limits and the histories *)

Section More.
Context {A : Type} {number : PyNumber A}.

Implicit Types (w : world (A:=A)) (amount limit : A) (category note : string).
Implicit Types (cs : list (call (A:=A))).

Lemma handle_add_transaction_run amount_entry category_entry note_entry now w :
  handle_add_transaction amount_entry category_entry note_entry now w
  = match float_of_string amount_entry with
    | None =>
        (Return tt,
         {| file := file w;
            ui := ui w ++ [showerror_input "could not convert string to float"] |})
    | Some amount =>
        if decide (category_entry = "")
        then (Return tt,
              {| file := file w;
                 ui := ui w ++ [showerror_input "Категория не может быть пустой."] |})
        else add_transaction amount category_entry note_entry now w
    end.
Proof.
  unfold handle_add_transaction, try_except_ValueError, float.
  unfold mbind, M_bind, mret, M_ret, raise, show.
  destruct (float_of_string amount_entry) as [amount|]; [|done].
  destruct category_entry as [|c category_entry]; [done|].
  cbn. by rewrite add_transaction_run.
Qed.

Lemma handle_set_limit_run limit_category_entry limit_entry w :
  handle_set_limit limit_category_entry limit_entry w
  = match float_of_string limit_entry with
    | None =>
        (Return tt,
         {| file := file w;
            ui := ui w ++ [showerror_input "could not convert string to float"] |})
    | Some limit =>
        if decide (limit_category_entry = "")
        then (Return tt,
              {| file := file w;
                 ui := ui w ++ [showerror_input "Категория не может быть пустой."] |})
        else if num_lt limit num_zero
        then (Return tt,
              {| file := file w;
                 ui := ui w ++ [showerror_input "Лимит не может быть отрицательным."] |})
        else set_limit limit_category_entry limit w
    end.
Proof.
  unfold handle_set_limit, try_except_ValueError, float.
  unfold mbind, M_bind, mret, M_ret, raise, show.
  destruct (float_of_string limit_entry) as [limit|]; [|done].
  destruct limit_category_entry as [|c cat]; [done|].
  cbn. rewrite set_limit_run. by destruct (num_lt limit num_zero).
Qed.

(** X1. The add button never lets an exception out.  An amount that is not
    a number, or an empty category, costs one error box and leaves the file
    alone; anything else is handed to [add_transaction] as it is. *)
Theorem handle_add_transaction_guarded amount_entry category_entry note_entry now w :
  let r := handle_add_transaction amount_entry category_entry note_entry now w in
  r.1 = Return tt
  ∧ (float_of_string amount_entry = None →
       ∃ e, r.2 = {| file := file w; ui := ui w ++ [showerror_input e] |})
  ∧ (∀ amount, float_of_string amount_entry = Some amount → category_entry = "" →
       r.2 = {| file := file w;
                ui := ui w ++ [showerror_input "Категория не может быть пустой."] |})
  ∧ (∀ amount, float_of_string amount_entry = Some amount → category_entry ≠ "" →
       r = add_transaction amount category_entry note_entry now w).
Proof.
  cbn zeta. rewrite handle_add_transaction_run. split_and!.
  - destruct (float_of_string amount_entry); [|done].
    case_decide; [done|]. by rewrite add_transaction_run.
  - intros ->. eauto.
  - intros amount -> ->. done.
  - intros amount -> Hc. by rewrite decide_False.
Qed.

(** X2. The limit button never lets an exception out either.  A limit that
    is not a number, an empty category or a limit below zero cost one error
    box and leave the file alone; anything else is handed to [set_limit]. *)
Theorem handle_set_limit_guarded limit_category_entry limit_entry w :
  let r := handle_set_limit limit_category_entry limit_entry w in
  r.1 = Return tt
  ∧ (float_of_string limit_entry = None →
       ∃ e, r.2 = {| file := file w; ui := ui w ++ [showerror_input e] |})
  ∧ (∀ limit, float_of_string limit_entry = Some limit →
       limit_category_entry = "" →
       r.2 = {| file := file w;
                ui := ui w ++ [showerror_input "Категория не может быть пустой."] |})
  ∧ (∀ limit, float_of_string limit_entry = Some limit →
       limit_category_entry ≠ "" → num_lt limit num_zero = true →
       r.2 = {| file := file w;
                ui := ui w ++ [showerror_input "Лимит не может быть отрицательным."] |})
  ∧ (∀ limit, float_of_string limit_entry = Some limit →
       limit_category_entry ≠ "" → num_lt limit num_zero = false →
       r = set_limit limit_category_entry limit w).
Proof.
  cbn zeta. rewrite handle_set_limit_run. split_and!.
  - destruct (float_of_string limit_entry) as [limit|]; [|done].
    case_decide; [done|]. destruct (num_lt limit num_zero) eqn:Hneg; [done|].
    by rewrite set_limit_run, Hneg.
  - intros ->. eauto.
  - intros limit -> ->. done.
  - intros limit -> Hc ->. by rewrite decide_False.
  - intros limit -> Hc ->. by rewrite decide_False.
Qed.

(** What one call does to the stored transactions and limits. *)
Lemma exec_stored (c : call) w :
  transactions (stored (exec c w))
  = transactions (stored w)
    ++ match c with
       | call_add amount category note now => [new_entry amount category note now]
       | _ => []
       end
  ∧ limits (stored (exec c w))
    = match c with
      | call_set_limit category limit =>
          if num_lt limit num_zero then limits (stored w)
          else <[category := limit]> (limits (stored w))
      | _ => limits (stored w)
      end.
Proof.
  destruct c as [amount category note now|category limit| |]; cbn [exec].
  - by rewrite add_transaction_run.
  - rewrite set_limit_run. destruct (num_lt limit num_zero); cbn;
      by rewrite app_nil_r.
  - rewrite calculate_balance_run. cbn. by rewrite app_nil_r.
  - unfold stored. rewrite generate_report_file. by rewrite app_nil_r.
Qed.

Lemma run_amounts cs : ∀ w,
  ∃ extra, transactions (stored (run cs w)) = transactions (stored w) ++ extra
           ∧ tx_amount <$> extra = history_amounts cs.
Proof.
  induction cs as [|c cs IH]; intros w.
  - exists []. by rewrite app_nil_r.
  - rewrite run_cons. destruct (IH (exec c w)) as (e2 & -> & H2).
    destruct (exec_stored c w) as [-> _].
    eexists (_ ++ e2). split; [by rewrite app_assoc|].
    rewrite fmap_app, H2. by destruct c.
Qed.

(** X3. Whatever calls are made, and however they end, the transactions on
    file are never removed, changed or moved: the old sequence stays in
    front, and the file grows by one transaction for each [add_transaction]
    of the history and by nothing else. *)
Theorem history_keeps_transactions cs w :
  transactions (stored w) `prefix_of` transactions (stored (run cs w))
  ∧ length (transactions (stored (run cs w)))
    = (length (transactions (stored w)) + length (history_amounts cs))%nat.
Proof.
  destruct (run_amounts cs w) as (extra & -> & Ha). split.
  - by apply prefix_app_r.
  - by rewrite length_app, <- Ha, length_fmap.
Qed.

(** X4. Where addition is exact, the balance after any history of calls is
    the balance before plus the amounts handed to [add_transaction] along
    the way: limits, reports and balance queries in between do not touch
    it. *)
Theorem history_balance {exact : ExactAdd A} cs w :
  ∃ before,
    calculate_balance w = (Return before, w)
    ∧ calculate_balance (run cs w)
      = (Return (num_add before (sum (history_amounts cs))), run cs w).
Proof.
  rewrite !calculate_balance_run. eexists. split; [done|].
  destruct (run_amounts cs w) as (extra & -> & <-).
  by rewrite fmap_app, sum_app.
Qed.

(** X5. No history puts a negative limit on file: if no stored limit is
    below zero, none is after any calls. *)
Theorem history_limits_nonnegative cs : ∀ w,
  map_Forall (λ _ limit, num_lt limit num_zero = false) (limits (stored w)) →
  map_Forall (λ _ limit, num_lt limit num_zero = false) (limits (stored (run cs w))).
Proof.
  induction cs as [|c cs IH]; intros w Hw; [done|].
  rewrite run_cons. apply IH. destruct (exec_stored c w) as [_ ->].
  destruct c as [| category limit | |]; try done.
  destruct (num_lt limit num_zero) eqn:Hneg; [done|].
  by apply map_Forall_insert_2.
Qed.

(** X6. A limit, once set, is never taken away: a category that has a limit
    still has one after any history of calls. *)
Theorem history_keeps_limit_keys cs category : ∀ w,
  is_Some (limits (stored w) !! category) →
  is_Some (limits (stored (run cs w)) !! category).
Proof.
  induction cs as [|c cs IH]; intros w Hw; [done|].
  rewrite run_cons. apply IH. destruct (exec_stored c w) as [_ ->].
  destruct c as [| other limit | |]; try done.
  destruct (num_lt limit num_zero); [done|].
  rewrite lookup_insert_is_Some. destruct (decide (other = category)); eauto.
Qed.

(** X7. The last limit wins: setting a limit of a category and then another
    one leaves the file as the second call alone would. *)
Theorem set_limit_last_wins category (first second : A) w :
  num_lt second num_zero = false →
  file (set_limit category second (set_limit category first w).2).2
  = file (set_limit category second w).2.
Proof.
  intros Hs. rewrite !set_limit_run, Hs.
  destruct (num_lt first num_zero); cbn; [done|].
  by rewrite insert_insert_eq.
Qed.

(** X8. Limits of different categories do not interfere: set in either
    order, they leave the same file. *)
Theorem set_limit_commutes (c1 c2 : string) (l1 l2 : A) w :
  c1 ≠ c2 →
  file (set_limit c2 l2 (set_limit c1 l1 w).2).2
  = file (set_limit c1 l1 (set_limit c2 l2 w).2).2.
Proof.
  intros Hne. rewrite !set_limit_run.
  destruct (num_lt l1 num_zero), (num_lt l2 num_zero); cbn; try done.
  by rewrite insert_insert_ne.
Qed.
End More.

(** ** The limit check, and what a report leaves alone *)

Section Limits.
Context {A : Type} {number : PyNumber A}.

Implicit Types (w : world (A:=A)) (amount limit : A) (category note : string).

(** X9. No warning without cause: when the category has no limit, or its
    limit is not below the projected total, [add_transaction] shows the
    confirmation and nothing else. *)
Theorem add_transaction_quiet_within_limit w amount category note now :
  (limits (stored w) !! category = None
   ∨ ∃ category_limit,
       limits (stored w) !! category = Some category_limit
       ∧ num_lt category_limit (projected_total (stored w) category amount) = false) →
  ui (add_transaction amount category note now w).2
  = ui w ++ [showinfo_added (tx_type (new_entry amount category note now))].
Proof.
  rewrite add_transaction_run. cbn. by intros [->|(category_limit & -> & ->)].
Qed.

(** X10. A limit only counts its own category: a transaction added under
    another category leaves the total the limit is compared with as it
    was. *)
Theorem limit_counts_own_category_only w amount category other note now (next : A) :
  other ≠ category →
  projected_total (stored (add_transaction amount other note now w).2) category next
  = projected_total (stored w) category next.
Proof.
  intros Hne. rewrite add_transaction_run. unfold projected_total. cbn.
  rewrite filter_app, filter_cons_False, filter_nil, app_nil_r; done.
Qed.

(** X11. Within a category every stored amount counts, whatever its sign:
    where addition is exact, the total that the next amount is checked
    against is the total that the last amount was checked against, plus
    the next amount. *)
Theorem limit_counts_every_amount {exact : ExactAdd A}
    w amount category note now (next : A) :
  projected_total (stored (add_transaction amount category note now w).2) category next
  = num_add (projected_total (stored w) category amount) next.
Proof.
  rewrite add_transaction_run. unfold projected_total.
  cbn [snd stored file transactions].
  rewrite filter_app, filter_cons_True, filter_nil by done.
  rewrite fmap_app, sum_app. f_equal. f_equal.
  unfold sum. cbn. apply num_add_0_l.
Qed.

(** X13. A report leaves the file alone, and takes nothing back from what
    has been shown, whatever its arguments and however it ends. *)
Theorem generate_report_never_writes sort_by reverse start_date end_date
    (category : option string) w :
  let r := generate_report sort_by reverse start_date end_date category w in
  file r.2 = file w ∧ ui w `prefix_of` ui r.2.
Proof.
  cbn zeta. split; [apply generate_report_file|].
  assert (Hrows : ∀ rows idx w', ui w' `prefix_of` ui (render_rows idx rows w').2).
  { induction rows as [|t rows IH]; intros idx w'; [done|].
    cbn [render_rows]. unfold mbind, M_bind, lift, show.
    destruct (strptime_iso (tx_date t)); [|done]. cbn.
    etrans; [|apply IH]. by apply prefix_app_r. }
  unfold generate_report.
  unfold mbind at 1. unfold M_bind at 1. rewrite load_data_run.
  unfold mbind at 1. unfold M_bind at 1.
  unfold date_stage, try_except_ValueError.
  destruct (truthy start_date || truthy end_date).
  - unfold mbind at 1. unfold M_bind at 1. unfold lift.
    destruct (date_filter _ _ _) as [dated|[e|e]]; cbn; [|by apply prefix_app_r|done].
    unfold mbind, M_bind, show. cbn. etrans; [|apply Hrows]. by apply prefix_app_r.
  - cbn. unfold mbind, M_bind, show. cbn. etrans; [|apply Hrows]. by apply prefix_app_r.
Qed.

End Limits.

(** ** Timestamps written and read back *)

Lemma ascii_of_digit_cases d : ascii_of_digit d ∈ digit_chars.
Proof.
  unfold ascii_of_digit, digit_chars.
  assert (0 <= d mod 10 < 10) as Hr by (apply Z.mod_pos_bound; lia).
  assert (d mod 10 = 0 ∨ d mod 10 = 1 ∨ d mod 10 = 2 ∨ d mod 10 = 3 ∨ d mod 10 = 4
          ∨ d mod 10 = 5 ∨ d mod 10 = 6 ∨ d mod 10 = 7 ∨ d mod 10 = 8 ∨ d mod 10 = 9)
    as Hc by lia.
  destruct Hc as [->|[->|[->|[->|[->|[->|[->|[->|[->| ->]]]]]]]]]; cbn;
    repeat first [by left | right].
Qed.

Lemma digit_of_ascii_of_digit d : digit_of_ascii (ascii_of_digit d) = Some (d mod 10).
Proof.
  unfold ascii_of_digit, digit_of_ascii.
  assert (0 <= d mod 10 < 10) as Hr by (apply Z.mod_pos_bound; lia).
  rewrite nat_ascii_embedding by lia. rewrite Z2Nat.id by lia.
  rewrite (proj2 (Z.leb_le _ _)), (proj2 (Z.leb_le _ _)) by lia.
  cbn. f_equal. lia.
Qed.

Lemma list_ascii_app (s1 s2 : string) :
  list_ascii_of_string (s1 +:+ s2) = list_ascii_of_string s1 ++ list_ascii_of_string s2.
Proof.
  induction s1 as [|c s1 IH]; [done|].
  change (String c s1 +:+ s2) with (String c (s1 +:+ s2)). cbn. by rewrite IH.
Qed.

Lemma zfill_chars w : ∀ n,
  list_ascii_of_string (zfill w n)
  = match w with
    | O => []
    | S w' => list_ascii_of_string (zfill w' (n / 10)) ++ [ascii_of_digit n]
    end.
Proof. destruct w; intros n; cbn [zfill]; [done|]. by rewrite list_ascii_app. Qed.

Lemma zfill_length w : ∀ n, length (list_ascii_of_string (zfill w n)) = w.
Proof.
  induction w as [|w IH]; intros n; rewrite zfill_chars; [done|].
  rewrite length_app, IH. cbn. lia.
Qed.

Lemma zfill_digits w : ∀ n, Forall (λ c, c ∈ digit_chars) (list_ascii_of_string (zfill w n)).
Proof.
  induction w as [|w IH]; intros n; rewrite zfill_chars; [constructor|].
  apply Forall_app. split; [apply IH|].
  constructor; [apply ascii_of_digit_cases|constructor].
Qed.

Lemma digits_value_snoc l : ∀ acc c,
  digits_value acc (l ++ [c])
  = v ← digits_value acc l; d ← digit_of_ascii c; Some (10 * v + d).
Proof.
  induction l as [|x l IH]; intros acc c; cbn.
  - by destruct (digit_of_ascii c).
  - destruct (digit_of_ascii x); [apply IH|done].
Qed.

Lemma digits_value_zfill w : ∀ n,
  0 <= n < 10 ^ Z.of_nat w →
  digits_value 0 (list_ascii_of_string (zfill w n)) = Some n.
Proof.
  induction w as [|w IH]; intros n Hn; rewrite zfill_chars.
  - cbn in *. f_equal. lia.
  - rewrite Nat2Z.inj_succ, Z.pow_succ_r in Hn by lia.
    rewrite digits_value_snoc, IH, digit_of_ascii_of_digit.
    + cbn. f_equal. pose proof (Z.div_mod n 10). lia.
    + split; [apply Z.div_pos; lia|]. apply Z.div_lt_upper_bound; lia.
Qed.

Lemma split_on_found sep l : ∀ c rest,
  Forall (λ x, sep x = false) l → sep c = true →
  split_on sep (l ++ c :: rest) = Some (l, rest).
Proof.
  induction l as [|x l IH]; intros c rest Hl Hc; cbn.
  - by rewrite Hc.
  - apply Forall_cons in Hl as [-> Hl]. by rewrite (IH c rest Hl Hc).
Qed.

Lemma split_on_missing sep l :
  Forall (λ x, sep x = false) l → split_on sep l = None.
Proof.
  induction 1 as [|x l Hx _ IH]; cbn; [done|]. by rewrite Hx, IH.
Qed.

Lemma zfill_no_sep (sep : ascii → bool) w n :
  Forall (λ x, sep x = false) digit_chars →
  Forall (λ x, sep x = false) (list_ascii_of_string (zfill w n)).
Proof.
  intros Hsep. eapply Forall_impl; [apply zfill_digits|].
  intros c Hc. rewrite Forall_forall in Hsep. by apply Hsep.
Qed.

Lemma digits_field_zfill (minlen maxlen w : nat) lo hi n :
  (minlen ≤ w ≤ maxlen)%nat → 0 <= n < 10 ^ Z.of_nat w → lo <= n <= hi →
  digits_field minlen maxlen lo hi (list_ascii_of_string (zfill w n)) = Some n.
Proof.
  intros Hw Hn Hr. unfold digits_field. rewrite zfill_length.
  rewrite (proj2 (Nat.leb_le _ _)), (proj2 (Nat.leb_le _ _)) by lia.
  cbn. rewrite digits_value_zfill by done. cbn.
  by rewrite (proj2 (Z.leb_le _ _)), (proj2 (Z.leb_le _ _)) by lia.
Qed.

Lemma re_d_zfill d : 1 <= d <= 31 → re_d (list_ascii_of_string (zfill 2 d)) = Some d.
Proof.
  intros Hd. rewrite <- (digits_field_zfill 1 2 2 1 31 d) by lia.
  rewrite (zfill_chars 2), (zfill_chars 1). cbn [zfill list_ascii_of_string app].
  pose proof (ascii_of_digit_cases (d / 10)) as Hc. unfold digit_chars in Hc.
  set (a := ascii_of_digit (d / 10)) in *. clearbody a.
  repeat (apply elem_of_cons in Hc as [->|Hc]; [done|]).
  by apply elem_of_nil in Hc.
Qed.

Lemma valid_datetime_bounds dt :
  valid_datetime dt →
  1 <= year dt <= 9999 ∧ 1 <= month dt <= 12 ∧ 1 <= day dt <= 31
  ∧ 0 <= hour dt <= 23 ∧ 0 <= minute dt <= 59 ∧ 0 <= second dt <= 59
  ∧ 0 <= microsecond dt <= 999999.
Proof.
  unfold valid_datetime, make_datetime. case_match eqn:Hc; [|done]. intros _.
  repeat (apply andb_true_iff in Hc as [Hc ?]).
  assert (days_in_month (year dt) (month dt) <= 31).
  { unfold days_in_month. repeat case_match; lia. }
  lia.
Qed.

Lemma strptime_iso_isoformat dt :
  valid_datetime dt →
  strptime_iso (isoformat dt)
  = if microsecond dt =? 0
    then Raise (ValueError "time data does not match format")
    else Return dt.
Proof.
  intros Hv. pose proof (valid_datetime_bounds dt Hv) as (HY & Hm & Hd & HH & HM & HS & Hf).
  unfold strptime_iso, isoformat. rewrite !list_ascii_app.
  cbn [list_ascii_of_string app]. unfold parse_iso.
  do 5 (rewrite split_on_found; [|by apply zfill_no_sep; repeat constructor|done];
        cbn [mbind option_bind]).
  destruct (microsecond dt =? 0) eqn:Hus.
  - cbn [list_ascii_of_string]. rewrite app_nil_r.
    rewrite split_on_missing; [done|]. by apply zfill_no_sep; repeat constructor.
  - rewrite list_ascii_app. cbn [list_ascii_of_string app].
    rewrite split_on_found; [|by apply zfill_no_sep; repeat constructor|done].
    cbn [mbind option_bind].
    unfold re_Y, re_m, re_H, re_M, re_S, re_f.
    rewrite (digits_field_zfill 4 4 4) by (cbn; lia). cbn [mbind option_bind].
    rewrite (digits_field_zfill 1 2 2) by (cbn; lia). cbn [mbind option_bind].
    rewrite re_d_zfill by done. cbn [mbind option_bind].
    do 3 (rewrite (digits_field_zfill 1 2 2) by (cbn; lia); cbn [mbind option_bind]).
    rewrite (digits_field_zfill 1 6 6) by (cbn; lia). cbn [mbind option_bind].
    rewrite zfill_length. change (10 ^ (6 - Z.of_nat 6)) with 1. rewrite Z.mul_1_r.
    unfold valid_datetime in Hv. by rewrite Hv.
Qed.

(** X15. What [add_transaction] writes as the date, [generate_report] can
    read back, unless the clock stood on a whole second: the timestamp then
    has no fraction, and the format of the report, which asks for one, does
    not match it. *)
Theorem timestamp_round_trip dt :
  valid_datetime dt →
  (microsecond dt ≠ 0 → strptime_iso (isoformat dt) = Return dt)
  ∧ (microsecond dt = 0 →
     strptime_iso (isoformat dt) = Raise (ValueError "time data does not match format")).
Proof.
  intros Hv. rewrite (strptime_iso_isoformat dt Hv). split.
  - intros Hus. by rewrite (proj2 (Z.eqb_neq _ _) Hus).
  - by intros ->.
Qed.

(** ** The date filter on readable and unreadable dates *)

Section DateFilter.
Context {A : Type} {number : PyNumber A}.

Implicit Types (w : world (A:=A)) (t : transaction (A:=A)).
Implicit Types (l rows : list (transaction (A:=A))) (dts : list datetime).

Lemma strptime_iso_cases s :
  (∃ dt, strptime_iso s = Return dt)
  ∨ strptime_iso s = Raise (ValueError "time data does not match format").
Proof. unfold strptime_iso, strptime_error. destruct (parse_iso _); eauto. Qed.

Lemma strptime_dmY_given s d : strptime_dmY s = Return d → truthy (Some s) = true.
Proof. by destruct s. Qed.

Lemma parse_bound_parsed s d :
  strptime_dmY s = Return d → parse_bound (Some s) = Return (PyDatetime d).
Proof.
  intros Hs. unfold parse_bound. by rewrite (strptime_dmY_given s d Hs), Hs.
Qed.

(** With bounds that are absent or parsed, and dates that all parse, the
    comprehension is a filter on the parsed dates. *)
Lemma filter_by_date_parsed (start_date end_date : option datetime) l dts :
  Forall2 (λ t dt, strptime_iso (tx_date t) = Return dt) l dts →
  filter_by_date (bound_of start_date) (bound_of end_date) l
  = Return (kept (λ dt, keeps_from start_date dt && keeps_until end_date dt)
              (zip l dts)).
Proof.
  induction 1 as [|t dt l dts Ht _ IH]; [done|].
  cbn [filter_by_date]. rewrite IH. unfold in_date_range, kept.
  destruct start_date as [s|], end_date as [e|]; cbn; rewrite ?Ht; cbn;
    repeat match goal with
      | |- context [datetime_le ?a ?b] =>
          destruct (datetime_le a b); cbn; rewrite ?Ht; cbn
      end; done.
Qed.

Lemma zip_parsed l dts t dt :
  Forall2 (λ t dt, strptime_iso (tx_date t) = Return dt) l dts →
  In (t, dt) (zip l dts) → strptime_iso (tx_date t) = Return dt.
Proof.
  induction 1 as [|t' dt' l dts Ht _ IH]; cbn; [done|].
  intros [[= <- <-]|Hin]; [done|by apply IH].
Qed.

(** X16. With both bounds given and well-formed, and stored dates that all
    parse, the date filter returns, in their stored order, exactly the
    transactions whose timestamp lies between the midnight that starts the
    first day and the midnight that starts the last. *)
Theorem date_filter_between a b s e l dts :
  strptime_dmY a = Return s →
  strptime_dmY b = Return e →
  Forall2 (λ t dt, strptime_iso (tx_date t) = Return dt) l dts →
  date_filter (Some a) (Some b) l
  = Return (kept (λ dt, datetime_le s dt && datetime_le dt e) (zip l dts)).
Proof.
  intros Ha Hb Hl. unfold date_filter.
  rewrite (parse_bound_parsed a s Ha), (parse_bound_parsed b e Hb).
  exact (filter_by_date_parsed (Some s) (Some e) l dts Hl).
Qed.

(** X17. With a start bound alone, the date filter goes by the calendar
    day: it returns, in their stored order, exactly the transactions dated
    on the day of the bound or later, whatever their time of day. *)
Theorem start_bound_is_by_day a s l dts :
  strptime_dmY a = Return s →
  Forall2 (λ t dt, strptime_iso (tx_date t) = Return dt) l dts →
  date_filter (Some a) None l
  = Return (kept (λ dt, date_le (date_of s) (date_of dt)) (zip l dts)).
Proof.
  intros Ha Hl. unfold date_filter. rewrite (parse_bound_parsed a s Ha).
  cbn [parse_bound mbind outcome_bind].
  etrans; [exact (filter_by_date_parsed (Some s) None l dts Hl)|].
  f_equal. unfold kept. f_equal. apply List.filter_ext_in.
  intros [t dt] Hin. cbn. rewrite andb_true_r.
  destruct (strptime_dmY_midnight a s Ha) as (? & ? & ? & ?).
  destruct (strptime_iso_time _ _ (zip_parsed l dts t dt Hl Hin)) as (? & ? & ? & ?).
  by apply datetime_le_from_midnight.
Qed.

Lemma parse_bound_datetime (b : option string) d :
  parse_bound b = Return (PyDatetime d) → truthy b = true.
Proof.
  destruct b as [s|]; [|done]. unfold parse_bound.
  by destruct (truthy (Some s)).
Qed.

Lemma filter_by_date_unreadable (s e : option datetime) l :
  is_Some s ∨ is_Some e →
  Exists (λ t, ¬ readable t) l →
  filter_by_date (bound_of s) (bound_of e) l
  = Raise (ValueError "time data does not match format").
Proof.
  intros Hse. induction l as [|t l IH]; intros Hl; [by apply Exists_nil in Hl|].
  cbn [filter_by_date].
  destruct (strptime_iso_cases (tx_date t)) as [[dt Ht]|Ht].
  - apply Exists_cons in Hl as [Hl|Hl]; [destruct Hl; by exists dt|].
    rewrite (IH Hl). unfold in_date_range.
    destruct s as [s|], e as [e|]; cbn; rewrite ?Ht; cbn;
      repeat match goal with
        | |- context [datetime_le ?a ?b] =>
            destruct (datetime_le a b); cbn; rewrite ?Ht; cbn
        end; done.
  - unfold in_date_range.
    destruct s as [s|], e as [e|]; cbn; rewrite ?Ht; cbn; try done.
    destruct Hse as [[? [=]]|[? [=]]].
Qed.

(** X18. One stored date that does not parse is enough to lose every
    report with a date bound: with bounds that are themselves absent or
    well-formed, at least one of them given, the report ends with the
    box that blames the format of the date, and shows no window. *)
Theorem report_unreadable_date_fails sort_by reverse start_date end_date
    (category : option string) (s e : option datetime) w :
  parse_bound start_date = Return (bound_of s) →
  parse_bound end_date = Return (bound_of e) →
  is_Some s ∨ is_Some e →
  Exists (λ t, ¬ readable t) (transactions (stored w)) →
  generate_report sort_by reverse start_date end_date category w
  = (Return tt, {| file := file w; ui := ui w ++ [showerror_date] |}).
Proof.
  intros Hs He Hse Hl. unfold generate_report.
  unfold mbind at 1. unfold M_bind at 1. rewrite load_data_run.
  unfold mbind at 1. unfold M_bind at 1.
  unfold date_stage, try_except_ValueError.
  assert (truthy start_date || truthy end_date = true) as ->.
  { destruct Hse as [[d ->]|[d ->]].
    - by rewrite (parse_bound_datetime _ d Hs).
    - rewrite (parse_bound_datetime _ d He). apply orb_true_r. }
  unfold mbind at 1. unfold M_bind at 1. unfold lift, date_filter.
  rewrite Hs, He. cbn [mbind outcome_bind].
  by rewrite (filter_by_date_unreadable s e _ Hse Hl).
Qed.

(** X19. From the form, a start date left blank arrives as the empty
    string.  With an end date filled in and a first stored transaction
    whose date parses, the comparison of that date with the empty string
    raises TypeError: nothing catches it, nothing is shown, the file stays. *)
Theorem blank_start_raises sort_by reverse end_date_entry category_combobox
    e t rest dt w :
  transactions (stored w) = t :: rest →
  strptime_iso (tx_date t) = Return dt →
  strptime_dmY end_date_entry = Return e →
  handle_generate_report sort_by reverse "" end_date_entry category_combobox w
  = (Raise (not_supported ">="), w).
Proof.
  intros Hl Ht He. unfold handle_generate_report, generate_report.
  unfold mbind at 1. unfold M_bind at 1. rewrite load_data_run, Hl.
  unfold mbind at 1. unfold M_bind at 1.
  unfold date_stage, try_except_ValueError.
  rewrite (strptime_dmY_given _ e He). cbn [truthy orb].
  unfold mbind at 1. unfold M_bind at 1. unfold lift, date_filter.
  rewrite (parse_bound_parsed _ e He). cbn. by rewrite Ht.
Qed.
End DateFilter.

(** ** Reports over the timestamps the program writes *)


Section WrittenDates.
Context {A : Type} {number : PyNumber A}.

Implicit Types (w : world (A:=A)) (t : transaction (A:=A)).
Implicit Types (l rows : list (transaction (A:=A))).

Lemma sort_stage_elements sort_by (reverse : bool) l :
  Permutation l (sort_stage sort_by reverse l).
Proof. unfold sort_stage. repeat case_decide; apply sorted_elements. Qed.

Lemma render_rows_unreadable rows : ∀ idx w,
  Exists (λ t, ¬ readable t) rows →
  (render_rows idx rows w).1 = Raise (ValueError "time data does not match format").
Proof.
  induction rows as [|t rows IH]; intros idx w Hr; [by apply Exists_nil in Hr|].
  cbn [render_rows]. unfold mbind, M_bind, lift, show.
  destruct (strptime_iso_cases (tx_date t)) as [[dt Ht]|Ht]; rewrite Ht; [|done].
  apply Exists_cons in Hr as [Hr|Hr]; [destruct Hr; by exists dt|].
  cbn. by apply IH.
Qed.

Lemma readable_dates rows :
  Forall readable rows →
  ∃ dts, Forall2 (λ t dt, strptime_iso (tx_date t) = Return dt) rows dts.
Proof.
  induction 1 as [|t rows [dt Ht] _ [dts IH]]; [by exists []|].
  exists (dt :: dts). by constructor.
Qed.

Lemma drawn_length (rows : list (transaction (A:=A) * datetime)) :
  ∀ idx, length (drawn idx rows) = length rows.
Proof.
  induction rows as [|[t dt] rows IH]; intros idx; cbn; [done|]. by rewrite IH.
Qed.

Lemma new_entry_readable (amount : A) category note now :
  valid_datetime now → microsecond now ≠ 0 →
  readable (new_entry amount category note now).
Proof.
  intros Hv Hus. exists now. cbn. rewrite (strptime_iso_isoformat now Hv).
  by rewrite (proj2 (Z.eqb_neq _ _) Hus).
Qed.

(** X20. A transaction added while the clock stands on a whole second
    spoils the reports that include it: without date bounds, and with no
    category filter or that of the transaction, the window opens and the
    report then ends in a ValueError, whatever the sort. *)
Theorem whole_second_breaks_report w (amount : A) category note now
    sort_by (reverse : bool) (filter_category : option string) :
  valid_datetime now → microsecond now = 0 →
  filter_category = None ∨ filter_category = Some category →
  let w' := (add_transaction amount category note now w).2 in
  (generate_report sort_by reverse None None filter_category w').1
  = Raise (ValueError "time data does not match format")
  ∧ Toplevel sort_by reverse
    ∈ ui (generate_report sort_by reverse None None filter_category w').2.
Proof.
  intros Hv Hus Hcat. cbn zeta. rewrite add_transaction_run. cbn [snd].
  set (w' := {| file := _; ui := _ |}).
  set (entry := new_entry amount category note now).
  assert (Hbad : ¬ readable entry).
  { intros [dt Hdt]. cbn in Hdt. rewrite (strptime_iso_isoformat now Hv) in Hdt.
    by rewrite Hus in Hdt. }
  assert (Hin : entry ∈ sort_stage sort_by reverse
                         (category_stage filter_category (transactions (stored w')))).
  { rewrite <- sort_stage_elements. subst w'. cbn [stored file transactions].
    destruct Hcat as [->| ->]; cbn [category_stage].
    - apply elem_of_app. right. by left.
    - destruct (truthy (Some category)).
      + apply list_elem_of_filter. split; [done|].
        apply elem_of_app. right. by left.
      + apply elem_of_app. right. by left. }
  unfold generate_report.
  unfold mbind at 1 3. unfold M_bind at 1 3. rewrite load_data_run.
  unfold mbind at 1 2. unfold M_bind at 1 2.
  unfold date_stage. cbn [truthy orb]. unfold mret, M_ret.
  unfold mbind at 1 2. unfold M_bind at 1 2. unfold show at 1 2. cbn [fst snd].
  split.
  - apply render_rows_unreadable. apply Exists_exists. eauto.
  - assert (∀ rows idx w0 ev, ev ∈ ui w0 → ev ∈ ui (render_rows idx rows w0).2) as Hkeep.
    { induction rows as [|t rows IH]; intros idx w0 ev Hev; [done|].
      cbn [render_rows]. unfold mbind, M_bind, lift, show.
      destruct (strptime_iso (tx_date t)); [|done]. cbn. apply IH. cbn.
      apply elem_of_app. by left. }
    apply Hkeep. cbn. apply elem_of_app. right. by left.
Qed.

(** X21. Reports work on what the program itself has written off the
    whole second: if the stored dates parse, then after any run of
    [add_transaction] calls at valid clock readings with a fraction of a
    second, a report without bounds or category returns normally and draws
    the title and one row for each stored transaction. *)
Theorem report_after_adds w (adds : list (A * string * string * datetime))
    sort_by (reverse : bool) :
  Forall readable (transactions (stored w)) →
  Forall (λ '(_, _, _, now), valid_datetime now ∧ microsecond now ≠ 0) adds →
  let w' := run (add_calls adds) w in
  ∃ shown,
    generate_report sort_by reverse None None None w'
    = (Return tt,
       {| file := file w'; ui := ui w' ++ Toplevel sort_by reverse :: shown |})
    ∧ length shown
      = (length (transactions (stored w)) + length adds)%nat.
Proof.
  intros Hw Hadds. cbn zeta.
  assert (Hall : Forall readable (transactions (stored (run (add_calls adds) w)))).
  { rewrite run_add_calls. apply Forall_app. split; [done|].
    clear Hw. induction Hadds as [|[[[amount category] note] now] adds [Hv Hus] _ IH];
      cbn; constructor; [by apply new_entry_readable|done]. }
  set (rows := sort_stage sort_by reverse
                 (category_stage None (transactions (stored (run (add_calls adds) w))))).
  assert (Hrows : Forall readable rows).
  { subst rows. cbn [category_stage]. by rewrite <- sort_stage_elements. }
  destruct (readable_dates rows Hrows) as [dts Hd].
  exists (drawn 0 (zip rows dts)). split.
  - exact (generate_report_draws sort_by reverse None _ dts Hd).
  - rewrite drawn_length, length_zip_with.
    rewrite <- (Forall2_length _ _ _ Hd), Nat.min_id.
    subst rows. cbn [category_stage]. rewrite <- sort_stage_elements.
    rewrite run_add_calls, length_app, length_map. done.
Qed.
End WrittenDates.

(** * The order of the rows of a report *)

Section SortedReports.
Context {A : Type} {number : PyNumber A}.

Implicit Types (w : world (A:=A)) (t : transaction (A:=A)).
Implicit Types (l rows dated : list (transaction (A:=A))).

(** The date filter shows nothing when it succeeds. *)
Lemma date_stage_returns start_date end_date l w dated :
  (date_stage start_date end_date l w).1 = Return (Some dated) →
  date_stage start_date end_date l w = (Return (Some dated), w).
Proof.
  unfold date_stage, try_except_ValueError.
  destruct (truthy start_date || truthy end_date).
  - unfold mbind, M_bind, lift, mret, M_ret, show.
    destruct (date_filter start_date end_date l) as [l'|[e|e]]; cbn; congruence.
  - unfold mret, M_ret. cbn. congruence.
Qed.

Lemma shown_rows_drawn rows : ∀ (dts : list datetime) idx,
  length rows = length dts → shown_rows (drawn idx (zip rows dts)) = rows.
Proof.
  induction rows as [|t rows IH]; intros [|dt dts] idx Hlen; try done.
  cbn in *. f_equal. apply IH. lia.
Qed.

(** The rows [render_rows] draws are the first of the rows it is given:
    all of them unless a date cannot be read. *)
Lemma render_rows_shows rows : ∀ idx w,
  ∃ shown,
    (render_rows idx rows w).2 = {| file := file w; ui := ui w ++ shown |}
    ∧ shown_rows shown `prefix_of` rows.
Proof.
  induction rows as [|t rows IH]; intros idx w.
  - exists []. cbn. rewrite app_nil_r. by destruct w.
  - cbn [render_rows]. unfold mbind, M_bind, lift, show.
    destruct (strptime_iso (tx_date t)) as [dt|e].
    + destruct (IH (S idx) {| file := file w; ui := ui w ++ [report_row idx dt t] |})
        as (shown & Hrun & Hprefix).
      exists (report_row idx dt t :: shown). rewrite Hrun. cbn.
      rewrite <- app_assoc. split; [done|]. by apply prefix_cons.
    + exists []. cbn. rewrite app_nil_r. split; [by destruct w|].
      apply prefix_nil.
Qed.

(** Once the date filter has let [dated] through, the report shows its
    title and then rows for the first of the transactions the category
    filter leaves, in the order [sorted] gives them: for all of them, and
    returning normally, if their dates can be read. *)
Lemma generate_report_shows sort_by (reverse : bool) start_date end_date
    (category : option string) w dated :
  (date_stage start_date end_date (transactions (stored w)) w).1
  = Return (Some dated) →
  let rows := sort_stage sort_by reverse (category_stage category dated) in
  ∃ shown,
    (generate_report sort_by reverse start_date end_date category w).2
    = {| file := file w; ui := ui w ++ Toplevel sort_by reverse :: shown |}
    ∧ shown_rows shown `prefix_of` rows
    ∧ (Forall readable (category_stage category dated) →
       (generate_report sort_by reverse start_date end_date category w).1
       = Return tt
       ∧ shown_rows shown = rows).
Proof.
  intros Hdated rows. apply date_stage_returns in Hdated.
  set (titled := {| file := file w; ui := ui w ++ [Toplevel sort_by reverse] |}).
  assert (Hrun : generate_report sort_by reverse start_date end_date category w
                 = render_rows 0 rows titled).
  { unfold generate_report.
    unfold mbind at 1. unfold M_bind at 1. rewrite load_data_run.
    unfold mbind at 1. unfold M_bind at 1. by rewrite Hdated. }
  destruct (render_rows_shows rows 0%nat titled) as (shown & Hshown & Hprefix).
  exists shown. rewrite Hrun, Hshown. cbn. rewrite <- app_assoc.
  split_and!; [done..|].
  intros Hread.
  assert (Hrows : Forall readable rows).
  { subst rows. by rewrite <- sort_stage_elements. }
  destruct (readable_dates rows Hrows) as [dts Hd].
  rewrite (render_rows_drawn rows dts 0%nat titled Hd) in Hshown |- *.
  split; [done|]. cbn in Hshown.
  injection Hshown as Hshown. apply app_inv_head in Hshown as <-.
  apply shown_rows_drawn. by eapply Forall2_length.
Qed.

(** The three words the code knows, and the field each one selects. *)
Lemma sort_stage_date (reverse : bool) l :
  stably_sorted String.ltb tx_date reverse l (sort_stage "дата" reverse l).
Proof.
  exact (sorted_ordered String.ltb tx_date reverse l (strict_total_ordered String.ltb _)).
Qed.

Lemma sort_stage_amount (reverse : bool) l :
  ordered_keys num_lt (tx_amount <$> l) →
  stably_sorted num_lt tx_amount reverse l (sort_stage "сумма" reverse l).
Proof. exact (sorted_ordered num_lt tx_amount reverse l). Qed.

Lemma sort_stage_category (reverse : bool) l :
  stably_sorted String.ltb tx_category reverse l (sort_stage "категория" reverse l).
Proof.
  exact (sorted_ordered String.ltb tx_category reverse l
           (strict_total_ordered String.ltb _)).
Qed.

(** Any other text selects the note. *)
Lemma sort_stage_note sort_by (reverse : bool) l :
  sort_by ∉ ["дата"; "сумма"; "категория"] →
  stably_sorted String.ltb tx_note reverse l (sort_stage sort_by reverse l).
Proof.
  rewrite !not_elem_of_cons. intros (Hdate & Hamount & Hcategory & _).
  unfold sort_stage. rewrite !decide_False by done.
  exact (sorted_ordered String.ltb tx_note reverse l (strict_total_ordered String.ltb _)).
Qed.

(** C4. The rows of a report come stably sorted by the field asked for, in
    the direction asked for, wherever [<] orders the keys.  Let the date
    filter let [dated] through and the category filter leave [filtered].
    Then there is a list [rows], which is [filtered] stably sorted, such
    that the report shows its title and then rows for the first of
    [rows]: for all of them, returning normally, if the dates of
    [filtered] can be read.  The sort is by date for "дата", by category
    for "категория", by amount for "сумма" when [<] orders the amounts of
    [filtered] (as it does when none is a NaN), and by note for any text
    that is neither one of these words nor one of the names "date",
    "amount", "category"; never going down when [reverse] is false, never
    going up when it is true. *)
Theorem report_is_stably_sorted sort_by (reverse : bool) start_date end_date
    (category : option string) w dated :
  (date_stage start_date end_date (transactions (stored w)) w).1
  = Return (Some dated) →
  let filtered := category_stage category dated in
  ∃ rows shown,
    (generate_report sort_by reverse start_date end_date category w).2
    = {| file := file w; ui := ui w ++ Toplevel sort_by reverse :: shown |}
    ∧ shown_rows shown `prefix_of` rows
    ∧ (Forall readable filtered →
       (generate_report sort_by reverse start_date end_date category w).1
       = Return tt
       ∧ shown_rows shown = rows)
    ∧ (sort_by = "дата" →
       stably_sorted String.ltb tx_date reverse filtered rows)
    ∧ (sort_by = "сумма" →
       ordered_keys num_lt (tx_amount <$> filtered) →
       stably_sorted num_lt tx_amount reverse filtered rows)
    ∧ (sort_by = "категория" →
       stably_sorted String.ltb tx_category reverse filtered rows)
    ∧ (sort_by ∉ ["дата"; "сумма"; "категория"; "date"; "amount"; "category"] →
       stably_sorted String.ltb tx_note reverse filtered rows).
Proof.
  intros Hdated filtered.
  destruct (generate_report_shows sort_by reverse start_date end_date category
              w dated Hdated) as (shown & Hrun & Hprefix & Hall).
  exists (sort_stage sort_by reverse filtered), shown.
  split_and!; [done..| | | |].
  - intros ->. apply sort_stage_date.
  - intros -> Hord. by apply sort_stage_amount.
  - intros ->. apply sort_stage_category.
  - intros Hother. apply sort_stage_note.
    rewrite !not_elem_of_cons in Hother. destruct Hother as (? & ? & ? & _).
    rewrite !not_elem_of_cons. split_and!; (done || apply not_elem_of_nil).
Qed.

(** C9. Sorting the report by amount keeps transactions of one amount in
    the order they were stored in, in both directions, wherever [<] orders
    the stored amounts (as it does when none is a NaN).  There is then a
    list [rows] with the stored transactions, in which for every stored
    transaction those of its amount come in the stored order, such that
    the report by "сумма" without filters shows its title and then rows
    for the first of [rows]: for all of them, returning normally, if the
    stored dates can be read. *)
Theorem amount_report_is_stable (reverse : bool) w :
  ordered_keys num_lt (tx_amount <$> transactions (stored w)) →
  ∃ rows shown,
    (generate_report "сумма" reverse None None None w).2
    = {| file := file w; ui := ui w ++ Toplevel "сумма" reverse :: shown |}
    ∧ shown_rows shown `prefix_of` rows
    ∧ (Forall readable (transactions (stored w)) →
       (generate_report "сумма" reverse None None None w).1 = Return tt
       ∧ shown_rows shown = rows)
    ∧ Permutation (transactions (stored w)) rows
    ∧ ∀ t, t ∈ transactions (stored w) →
           with_amount (tx_amount t) rows
           = with_amount (tx_amount t) (transactions (stored w)).
Proof.
  intros Hord.
  destruct (generate_report_shows "сумма" reverse None None None w
              (transactions (stored w)) eq_refl) as (shown & Hrun & Hprefix & Hall).
  exists (sort_stage "сумма" reverse (transactions (stored w))), shown.
  destruct (sort_stage_amount reverse _ Hord) as (Hperm & _ & Hstable).
  split_and!; [done..|].
  intros t Ht. apply Hstable. by apply list_elem_of_fmap_2.
Qed.

(** X14. The names the docstring gives for the sort field, "date" (the
    value [sort_by] has when it is not passed), "amount" and "category",
    are none of the words the function compares with: a report asked for
    by one of them comes sorted by note, stably, in the direction asked
    for. *)
Theorem documented_names_sort_by_note sort_by (reverse : bool) start_date end_date
    (category : option string) w dated :
  sort_by ∈ ["date"; "amount"; "category"] →
  (date_stage start_date end_date (transactions (stored w)) w).1
  = Return (Some dated) →
  ∃ rows shown,
    (generate_report sort_by reverse start_date end_date category w).2
    = {| file := file w; ui := ui w ++ Toplevel sort_by reverse :: shown |}
    ∧ shown_rows shown `prefix_of` rows
    ∧ (Forall readable (category_stage category dated) →
       (generate_report sort_by reverse start_date end_date category w).1
       = Return tt
       ∧ shown_rows shown = rows)
    ∧ stably_sorted String.ltb tx_note reverse (category_stage category dated) rows.
Proof.
  intros Hname Hdated.
  destruct (generate_report_shows sort_by reverse start_date end_date category
              w dated Hdated) as (shown & Hrun & Hprefix & Hall).
  exists (sort_stage sort_by reverse (category_stage category dated)), shown.
  split_and!; [done..|].
  apply sort_stage_note.
  rewrite !elem_of_cons in Hname. rewrite !not_elem_of_cons.
  destruct Hname as [->|[->|[->|Hname]]];
    [| | |by apply elem_of_nil in Hname];
    split_and!; (discriminate || apply not_elem_of_nil).
Qed.

(** X22. The sort loses no row and makes none up, whatever the field and
    whatever the amounts, a NaN included: once the date filter has let
    [dated] through and the dates left by the category filter can be read,
    the report returns normally and its rows are these transactions, each
    as often as it is stored. *)
Theorem report_rows_are_the_filtered sort_by (reverse : bool) start_date end_date
    (category : option string) w dated :
  (date_stage start_date end_date (transactions (stored w)) w).1
  = Return (Some dated) →
  Forall readable (category_stage category dated) →
  ∃ shown,
    generate_report sort_by reverse start_date end_date category w
    = (Return tt,
       {| file := file w; ui := ui w ++ Toplevel sort_by reverse :: shown |})
    ∧ Permutation (category_stage category dated) (shown_rows shown).
Proof.
  intros Hdated Hread.
  destruct (generate_report_shows sort_by reverse start_date end_date category
              w dated Hdated) as (shown & Hrun & _ & Hall).
  destruct (Hall Hread) as [Hreturn Hshown].
  exists shown. split.
  - rewrite <- Hrun, <- Hreturn. apply surjective_pairing.
  - rewrite Hshown. apply sort_stage_elements.
Qed.
End SortedReports.

(** ** The order of the rows on samples *)

(** "nan" typed as the amount passes the form and is stored: [float]
    reads it, and it is neither negative nor, without a limit, checked
    against anything. *)
Example nan_amount_is_stored :
  ∃ t, (handle_add_transaction (A:=PrimFloat.float) "nan" "Food" "" noon fresh).2
       = {| file := Some {| transactions := [t]; limits := ∅ |};
            ui := [showinfo_added "начисление"] |}
       ∧ PrimFloat.eqb (tx_amount t) (tx_amount t) = false.
Proof. eexists. split; reflexivity. Qed.

(** C4 (counterexample). With a NaN among the amounts the report by
    amount is not sorted: on the stored amounts 3, NaN, 1, 2 it shows the
    rows as they are stored, 3 before 1. *)
Lemma amount_report_unsorted_with_nan :
  ∃ shown,
    generate_report "сумма" false None None None nan_second_file
    = (Return tt,
       {| file := file nan_second_file; ui := Toplevel "сумма" false :: shown |})
    ∧ tx_note <$> shown_rows shown = ["3"; "nan"; "1"; "2"]
    ∧ ¬ stably_sorted num_lt tx_amount false
          (transactions (stored nan_second_file)) (shown_rows shown).
Proof.
  exists (tail (ui (generate_report "сумма" false None None None nan_second_file).2)).
  split_and!; [vm_compute; reflexivity..|].
  intros (_ & Hsorted & _). vm_compute in Hsorted.
  apply StronglySorted_inv in Hsorted as [_ Hall].
  apply Forall_cons in Hall as [_ Hall]. apply Forall_cons in Hall as [Hlt _].
  vm_compute in Hlt. discriminate.
Qed.

(** C9 (counterexample). With a NaN among the amounts the report by
    amount does not keep equal amounts in their order: on the stored
    amounts 6, 7, 8, NaN, 5, 2, 5 the second 5 is shown before the
    first. *)
Lemma amount_report_unstable_with_nan :
  ∃ shown,
    generate_report "сумма" false None None None nan_file
    = (Return tt, {| file := file nan_file; ui := Toplevel "сумма" false :: shown |})
    ∧ tx_note <$> shown_rows shown
      = ["2"; "second 5"; "6"; "7"; "8"; "nan"; "first 5"]
    ∧ tx_note <$> List.filter (λ t, PrimFloat.eqb (tx_amount t) 5)
                    (transactions (stored nan_file))
      = ["first 5"; "second 5"]
    ∧ tx_note <$> List.filter (λ t, PrimFloat.eqb (tx_amount t) 5) (shown_rows shown)
      = ["second 5"; "first 5"].
Proof.
  exists (tail (ui (generate_report "сумма" false None None None nan_file).2)).
  split_and!; vm_compute; reflexivity.
Qed.

Lemma report_is_stably_sorted_witness :
  ∃ rows shown,
    generate_report "сумма" true None None None float_file
    = (Return tt,
       {| file := file float_file;
          ui := ui float_file ++ Toplevel "сумма" true :: shown |})
    ∧ shown_rows shown = rows
    ∧ stably_sorted PrimFloat.ltb tx_amount true
        (transactions (stored float_file)) rows.
Proof.
  destruct (report_is_stably_sorted (A:=PrimFloat.float) "сумма" true None None None
              float_file (transactions (stored float_file)) eq_refl)
    as (rows & shown & Hrun & _ & Hall & _ & Hamount & _).
  destruct Hall as [Hreturn Hshown].
  { repeat constructor; eexists; reflexivity. }
  exists rows, shown. split_and!.
  - rewrite <- Hrun, <- Hreturn. apply surjective_pairing.
  - exact Hshown.
  - apply Hamount; [reflexivity|].
    apply ordered_keysb_sound. vm_compute. reflexivity.
Defined.

Lemma amount_report_is_stable_witness :
  ∃ rows shown,
    (generate_report "сумма" false None None None float_file).2
    = {| file := file float_file;
         ui := ui float_file ++ Toplevel "сумма" false :: shown |}
    ∧ shown_rows shown `prefix_of` rows
    ∧ (Forall readable (transactions (stored float_file)) →
       (generate_report "сумма" false None None None float_file).1 = Return tt
       ∧ shown_rows shown = rows)
    ∧ Permutation (transactions (stored float_file)) rows
    ∧ ∀ t, t ∈ transactions (stored float_file) →
           with_amount (tx_amount t) rows
           = with_amount (tx_amount t) (transactions (stored float_file)).
Proof.
  apply (amount_report_is_stable (A:=PrimFloat.float) false float_file).
  apply floats_without_nan_ordered. repeat constructor.
Defined.

Lemma documented_names_sort_by_note_witness :
  ∃ rows shown,
    (generate_report "date" false None None None notes_against_dates).2
    = {| file := file notes_against_dates;
         ui := ui notes_against_dates ++ Toplevel "date" false :: shown |}
    ∧ shown_rows shown `prefix_of` rows
    ∧ (Forall readable (transactions (stored notes_against_dates)) →
       (generate_report "date" false None None None notes_against_dates).1
       = Return tt
       ∧ shown_rows shown = rows)
    ∧ stably_sorted String.ltb tx_note false
        (transactions (stored notes_against_dates)) rows.
Proof.
  apply (documented_names_sort_by_note (A:=Z) "date" false None None None
           notes_against_dates (transactions (stored notes_against_dates))).
  - constructor.
  - reflexivity.
Defined.

Lemma report_rows_are_the_filtered_witness :
  ∃ shown,
    generate_report "сумма" false None None None nan_file
    = (Return tt,
       {| file := file nan_file;
          ui := ui nan_file ++ Toplevel "сумма" false :: shown |})
    ∧ Permutation (transactions (stored nan_file)) (shown_rows shown).
Proof.
  apply (report_rows_are_the_filtered (A:=PrimFloat.float) "сумма" false None None None
           nan_file (transactions (stored nan_file))).
  - reflexivity.
  - repeat constructor; eexists; reflexivity.
Defined.

(** What the reports show on the samples: by "сумма" the floats without
    NaN in both directions, equal amounts in stored order; by the
    documented name "date" the notes in order, the later date first. *)
Example amount_report_descending :
  tx_note <$> shown_rows (ui (generate_report "сумма" true None None None float_file).2)
  = ["first 5"; "second 5"; "2.5"; "-1"].
Proof. vm_compute. reflexivity. Qed.

Example amount_report_ascending :
  tx_note <$> shown_rows (ui (generate_report "сумма" false None None None float_file).2)
  = ["-1"; "2.5"; "first 5"; "second 5"].
Proof. vm_compute. reflexivity. Qed.

Example report_by_date_name_follows_notes :
  tx_date <$> shown_rows (ui (generate_report "date" false None None None
                                notes_against_dates).2)
  = ["2024-02-01T10:00:00.000001"; "2024-01-01T10:00:00.000001"].
Proof. vm_compute. reflexivity. Qed.

(** ** Instances of the further properties *)

Lemma handle_add_transaction_guarded_witness :
  (handle_add_transaction (A:=Z) "12" "" "" noon fresh).2
  = {| file := None;
       ui := [showerror_input "Категория не может быть пустой."] |}.
Proof.
  destruct (handle_add_transaction_guarded (A:=Z) "12" "" "" noon fresh)
    as (_ & _ & Hempty & _).
  exact (Hempty 12 eq_refl eq_refl).
Defined.

Lemma handle_set_limit_guarded_witness :
  (handle_set_limit (A:=Z) "Food" "-5" fresh).2
  = {| file := None;
       ui := [showerror_input "Лимит не может быть отрицательным."] |}.
Proof.
  destruct (handle_set_limit_guarded (A:=Z) "Food" "-5" fresh)
    as (_ & _ & _ & Hneg & _).
  apply (Hneg (-5)); [reflexivity|discriminate|reflexivity].
Defined.

Lemma history_balance_witness :
  ∃ before,
    calculate_balance food_limited = (Return before, food_limited)
    ∧ calculate_balance
        (run [call_add 500 "Food" "" morning; call_set_limit "Rent" 7;
              call_report "дата" false None None None;
              call_add (-200) "Food" "" noon] food_limited)
      = (Return (before + sum [500; -200]),
         run [call_add 500 "Food" "" morning; call_set_limit "Rent" 7;
              call_report "дата" false None None None;
              call_add (-200) "Food" "" noon] food_limited).
Proof.
  exact (history_balance (A:=Z) (exact:=Z_exact)
           [call_add 500 "Food" "" morning; call_set_limit "Rent" 7;
            call_report "дата" false None None None;
            call_add (-200) "Food" "" noon] food_limited).
Defined.

Lemma history_limits_nonnegative_witness :
  map_Forall (λ _ limit, num_lt limit num_zero = false)
    (limits (stored (run [call_set_limit "Food" (-1); call_set_limit "Rent" 5]
                       (fresh (A:=Z))))).
Proof.
  apply (history_limits_nonnegative (A:=Z)
           [call_set_limit "Food" (-1); call_set_limit "Rent" 5] fresh).
  intros category limit Hl. vm_compute in Hl. discriminate.
Defined.

Lemma history_keeps_limit_keys_witness :
  is_Some (limits (stored (run [call_set_limit "Rent" 5;
                                call_add 1 "Food" "" noon] food_limited)) !! "Food").
Proof.
  apply (history_keeps_limit_keys (A:=Z)
           [call_set_limit "Rent" 5; call_add 1 "Food" "" noon] "Food" food_limited).
  exists 10. reflexivity.
Defined.

Lemma set_limit_last_wins_witness :
  file (set_limit "Food" 20 (set_limit "Food" 15 food_limited).2).2
  = file (set_limit "Food" 20 food_limited).2.
Proof. apply (set_limit_last_wins (A:=Z) "Food" 15 20 food_limited). reflexivity. Defined.

Lemma set_limit_commutes_witness :
  file (set_limit "Rent" 7 (set_limit "Food" 15 food_limited).2).2
  = file (set_limit "Food" 15 (set_limit "Rent" 7 food_limited).2).2.
Proof. apply (set_limit_commutes (A:=Z) "Food" "Rent" 15 7 food_limited). discriminate. Defined.

Lemma add_transaction_quiet_within_limit_witness :
  ui (add_transaction (A:=Z) 2 "Food" "" noon food_limited).2
  = [showinfo_added "начисление"].
Proof.
  etrans.
  - apply (add_transaction_quiet_within_limit food_limited 2 "Food" "" noon).
    right. exists 10. split; reflexivity.
  - reflexivity.
Defined.

Lemma limit_counts_own_category_only_witness :
  projected_total (stored (add_transaction (A:=Z) 100 "Rent" "" noon food_limited).2)
    "Food" 1
  = projected_total (stored food_limited) "Food" 1.
Proof.
  apply (limit_counts_own_category_only food_limited 100 "Food" "Rent" "" noon 1).
  discriminate.
Defined.

Lemma limit_counts_every_amount_witness :
  projected_total (stored (add_transaction (A:=Z) (-3) "Food" "" noon food_limited).2)
    "Food" 4
  = projected_total (stored food_limited) "Food" (-3) + 4.
Proof.
  exact (limit_counts_every_amount (A:=Z) (exact:=Z_exact)
           food_limited (-3) "Food" "" noon 4).
Defined.

Lemma timestamp_round_trip_witness :
  strptime_iso (isoformat noon) = Return noon
  ∧ strptime_iso (isoformat on_the_second)
    = Raise (ValueError "time data does not match format").
Proof.
  split.
  - apply (timestamp_round_trip noon); [reflexivity|discriminate].
  - apply (timestamp_round_trip on_the_second); reflexivity.
Defined.

Lemma date_filter_between_witness :
  date_filter (Some "01.03.2024") (Some "01.09.2024") year_2024
  = Return (List.filter (λ t, tx_amount t =? 2) year_2024).
Proof.
  etrans.
  - eapply (date_filter_between (A:=Z) "01.03.2024" "01.09.2024");
      [reflexivity|reflexivity|repeat constructor].
  - reflexivity.
Defined.

Lemma start_bound_is_by_day_witness :
  date_filter (Some "01.09.2024") None (lunch :: year_2024)
  = Return (List.filter (λ t, tx_amount t =? 100) (lunch :: year_2024)
            ++ List.filter (λ t, tx_amount t =? 3) year_2024).
Proof.
  etrans.
  - eapply (start_bound_is_by_day (A:=Z) "01.09.2024");
      [reflexivity|repeat constructor].
  - reflexivity.
Defined.

Lemma report_unreadable_date_fails_witness :
  generate_report "дата" false (Some "01.01.2024") None None lunch_then_bare
  = (Return tt, {| file := file lunch_then_bare; ui := [showerror_date] |}).
Proof.
  apply (report_unreadable_date_fails (A:=Z) "дата" false (Some "01.01.2024") None None
           (Some {| year := 2024; month := 1; day := 1;
                    hour := 0; minute := 0; second := 0; microsecond := 0 |})
           None lunch_then_bare).
  - reflexivity.
  - reflexivity.
  - left. eexists. reflexivity.
  - apply Exists_cons_tl, Exists_cons_hd. intros [dt Hdt]. discriminate Hdt.
Defined.

Lemma blank_start_raises_witness :
  handle_generate_report (A:=Z) "дата" false "" "01.09.2024" "" lunch_only
  = (Raise (not_supported ">="), lunch_only).
Proof.
  eapply (blank_start_raises (A:=Z) "дата" false "01.09.2024" "" _ lunch [] _ lunch_only);
    reflexivity.
Defined.

Lemma whole_second_breaks_report_witness :
  (generate_report "сумма" true None None None
     (add_transaction (A:=Z) 40 "Rent" "" on_the_second lunch_only).2).1
  = Raise (ValueError "time data does not match format").
Proof.
  apply (whole_second_breaks_report (A:=Z) lunch_only 40 "Rent" "" on_the_second
           "сумма" true None); [reflexivity|reflexivity|by left].
Defined.

Lemma report_after_adds_witness :
  ∃ shown,
    generate_report "сумма" false None None None
      (run (add_calls [(500, "Food", "", morning); (-200, "Food", "", noon)]) lunch_only)
    = (Return tt,
       {| file := file (run (add_calls [(500, "Food", "", morning);
                                        (-200, "Food", "", noon)]) lunch_only);
          ui := ui (run (add_calls [(500, "Food", "", morning);
                                    (-200, "Food", "", noon)]) lunch_only)
                ++ Toplevel "сумма" false :: shown |})
    ∧ length shown = 3%nat.
Proof.
  apply (report_after_adds (A:=Z) lunch_only
           [(500, "Food", "", morning); (-200, "Food", "", noon)] "сумма" false).
  - repeat constructor. eexists. reflexivity.
  - repeat constructor; discriminate.
Defined.
